(** * LemmingsFHE: batch lifecycle and verified decryption callback

    A shallow embedding of the [LemmingsFHE] Solidity contract
    (pragma ^0.8.24) and the properties of its batch store, cooldown guard
    and decryption callback.

    - [uint256] and [address] values are binary naturals [N]; Solidity 0.8
      arithmetic is checked, so [+], [*] and [++] revert with [Panic 0x11]
      when the result leaves the 256-bit range.
    - a [mapping] is a finite map read through its zero default.
    - a function body is a computation in a state-and-revert monad.  A
      [Revert] keeps the storage as it was at the point of the revert, so
      that "no write precedes a revert" is a statement about the bodies and
      not only about the roll-back of the EVM, which [transact] applies.
    - the primitives of the FHE library and keccak256 are parameters. *)

From Stdlib Require Import NArith ZArith Lia List.
From Stdlib Require Import Strings.String Strings.Byte.
From stdpp Require Import gmap list.
Import ListNotations.

Local Open Scope N_scope.

(** ** Data model *)

Definition MAX_UINT256 : N := 2 ^ 256 - 1.

Definition bytes : Type := list byte.

Inductive Error : Type :=
| NotOwner
| NotProvider
| PausedState
| CooldownActive
| BatchClosedOrInvalid
| ReplayAttempt
| StateMismatch
| InvalidBatchId
| InvalidLemmingId
| Panic (code : N)
| SliceOutOfBounds
| SignaturesRejected.

(** The name under which an error is reported to the caller.  The first nine
    are the contract's custom errors; [Panic] is the compiler's arithmetic
    check; the last two are raised inside [slice] and [FHE.checkSignatures]. *)
Definition errorName (e : Error) : string :=
  match e with
  | NotOwner => "NotOwner"
  | NotProvider => "NotProvider"
  | PausedState => "PausedState"
  | CooldownActive => "CooldownActive"
  | BatchClosedOrInvalid => "BatchClosedOrInvalid"
  | ReplayAttempt => "ReplayAttempt"
  | StateMismatch => "StateMismatch"
  | InvalidBatchId => "InvalidBatchId"
  | InvalidLemmingId => "InvalidLemmingId"
  | Panic _ => "Panic"
  | SliceOutOfBounds => "slice_outOfBounds"
  | SignaturesRejected => "checkSignatures"
  end%string.

Record DecryptionContext : Type := mkContext {
  batchId : N;
  stateHash : N;
  processed : bool
}.

Record Lemming : Type := mkLemming {
  ability : N;
  x : N;
  y : N
}.

Record State : Type := mkState {
  owner : N;
  isProvider : gmap N bool;
  paused : bool;
  cooldownSeconds : N;
  lastSubmissionTime : gmap N N;
  lastDecryptionRequestTime : gmap N N;
  currentBatchId : N;
  isBatchOpen : gmap N bool;
  decryptionContexts : gmap N DecryptionContext;
  lemmings : gmap (N * N) Lemming;
  lemmingCountInBatch : gmap N N
}.

Inductive Event : Type :=
| OwnershipTransferred (previousOwner newOwner : N)
| ProviderAdded (provider : N)
| ProviderRemoved (provider : N)
| Paused (account : N)
| Unpaused (account : N)
| CooldownSecondsSet (oldCooldown newCooldown : N)
| BatchOpened (batch : N)
| BatchClosed (batch : N)
| LemmingSubmitted (provider batch lemmingId : N)
| DecryptionRequested (requestId batch hash : N)
| DecryptionCompleted (requestId batch : N) (abilities xs ys : list N).

(** What a call sees of its transaction: the caller, the block time, and,
    for [requestBatchDecryption], the request id that the oracle hands back
    from [FHE.requestDecryption]. *)
Record Env : Type := mkEnv {
  msg_sender : N;
  block_timestamp : N;
  fhe_requestId : N
}.

(** Reads of mappings: an absent key reads as the zero value of its type. *)
Definition zeroContext : DecryptionContext := mkContext 0 0 false.
Definition zeroLemming : Lemming := mkLemming 0 0 0.

Definition providerAt (s : State) (a : N) : bool := default false (isProvider s !! a).
Definition batchOpenAt (s : State) (b : N) : bool := default false (isBatchOpen s !! b).
Definition countAt (s : State) (b : N) : N := default 0 (lemmingCountInBatch s !! b).
Definition lemmingAt (s : State) (b i : N) : Lemming := default zeroLemming (lemmings s !! (b, i)).
Definition contextAt (s : State) (r : N) : DecryptionContext :=
  default zeroContext (decryptionContexts s !! r).
Definition timeAt (m : gmap N N) (a : N) : N := default 0 (m !! a).

(** Writes of one storage variable. *)
Definition set_owner (v : N) (s : State) : State :=
  mkState v (isProvider s) (paused s) (cooldownSeconds s) (lastSubmissionTime s)
    (lastDecryptionRequestTime s) (currentBatchId s) (isBatchOpen s)
    (decryptionContexts s) (lemmings s) (lemmingCountInBatch s).
Definition set_isProvider (v : gmap N bool) (s : State) : State :=
  mkState (owner s) v (paused s) (cooldownSeconds s) (lastSubmissionTime s)
    (lastDecryptionRequestTime s) (currentBatchId s) (isBatchOpen s)
    (decryptionContexts s) (lemmings s) (lemmingCountInBatch s).
Definition set_paused (v : bool) (s : State) : State :=
  mkState (owner s) (isProvider s) v (cooldownSeconds s) (lastSubmissionTime s)
    (lastDecryptionRequestTime s) (currentBatchId s) (isBatchOpen s)
    (decryptionContexts s) (lemmings s) (lemmingCountInBatch s).
Definition set_cooldownSeconds (v : N) (s : State) : State :=
  mkState (owner s) (isProvider s) (paused s) v (lastSubmissionTime s)
    (lastDecryptionRequestTime s) (currentBatchId s) (isBatchOpen s)
    (decryptionContexts s) (lemmings s) (lemmingCountInBatch s).
Definition set_lastSubmissionTime (v : gmap N N) (s : State) : State :=
  mkState (owner s) (isProvider s) (paused s) (cooldownSeconds s) v
    (lastDecryptionRequestTime s) (currentBatchId s) (isBatchOpen s)
    (decryptionContexts s) (lemmings s) (lemmingCountInBatch s).
Definition set_lastDecryptionRequestTime (v : gmap N N) (s : State) : State :=
  mkState (owner s) (isProvider s) (paused s) (cooldownSeconds s) (lastSubmissionTime s)
    v (currentBatchId s) (isBatchOpen s)
    (decryptionContexts s) (lemmings s) (lemmingCountInBatch s).
Definition set_currentBatchId (v : N) (s : State) : State :=
  mkState (owner s) (isProvider s) (paused s) (cooldownSeconds s) (lastSubmissionTime s)
    (lastDecryptionRequestTime s) v (isBatchOpen s)
    (decryptionContexts s) (lemmings s) (lemmingCountInBatch s).
Definition set_isBatchOpen (v : gmap N bool) (s : State) : State :=
  mkState (owner s) (isProvider s) (paused s) (cooldownSeconds s) (lastSubmissionTime s)
    (lastDecryptionRequestTime s) (currentBatchId s) v
    (decryptionContexts s) (lemmings s) (lemmingCountInBatch s).
Definition set_decryptionContexts (v : gmap N DecryptionContext) (s : State) : State :=
  mkState (owner s) (isProvider s) (paused s) (cooldownSeconds s) (lastSubmissionTime s)
    (lastDecryptionRequestTime s) (currentBatchId s) (isBatchOpen s)
    v (lemmings s) (lemmingCountInBatch s).
Definition set_lemmings (v : gmap (N * N) Lemming) (s : State) : State :=
  mkState (owner s) (isProvider s) (paused s) (cooldownSeconds s) (lastSubmissionTime s)
    (lastDecryptionRequestTime s) (currentBatchId s) (isBatchOpen s)
    (decryptionContexts s) v (lemmingCountInBatch s).
Definition set_lemmingCountInBatch (v : gmap N N) (s : State) : State :=
  mkState (owner s) (isProvider s) (paused s) (cooldownSeconds s) (lastSubmissionTime s)
    (lastDecryptionRequestTime s) (currentBatchId s) (isBatchOpen s)
    (decryptionContexts s) (lemmings s) v.

(** ** The state-and-revert monad *)

Inductive Result (A : Type) : Type :=
| Ok (a : A) (s : State) (evs : list Event)
| Revert (e : Error) (s : State).
Arguments Ok {A} a s evs.
Arguments Revert {A} e s.

Definition M (A : Type) : Type := State -> Result A.

Definition ret {A : Type} (a : A) : M A := fun s => Ok a s [].

Definition bind {A B : Type} (m : M A) (f : A -> M B) : M B := fun s =>
  match m s with
  | Ok a s1 e1 =>
      match f a s1 with
      | Ok b s2 e2 => Ok b s2 (e1 ++ e2)
      | Revert e s2 => Revert e s2
      end
  | Revert e s1 => Revert e s1
  end.

Notation "'let*' v ':=' m 'in' k" := (bind m (fun v => k))
  (at level 10, v name, m at level 100, k at level 200).
Notation "m >> k" := (bind m (fun _ => k))
  (at level 90, right associativity).

Definition get : M State := fun s => Ok s s [].
Definition modify (f : State -> State) : M unit := fun s => Ok tt (f s) [].
Definition revert {A : Type} (e : Error) : M A := fun s => Revert e s.
Definition emit (ev : Event) : M unit := fun s => Ok tt s [ev].

(** [if (c) revert E();] *)
Definition revertIf (c : bool) (e : Error) : M unit :=
  if c then revert e else ret tt.

(** Checked 256-bit arithmetic of Solidity 0.8. *)
Definition checked_add (a b : N) : M N :=
  if a + b <=? MAX_UINT256 then ret (a + b) else revert (Panic 17).
Definition checked_mul (a b : N) : M N :=
  if a * b <=? MAX_UINT256 then ret (a * b) else revert (Panic 17).

(** ** Byte strings *)

(** Modelled from the spec: [slice] on [bytes] is called by [myCallback] but
    declared nowhere in the contract source.  Step 5 of the callback reads
    fixed-width 32-byte integers at consecutive offsets, so
    [slice b start len] is the [len] bytes of [b] from offset [start], and
    it fails when [b] does not hold them all. *)
Definition slice (b : bytes) (start len : N) : M bytes :=
  if start + len <=? N.of_nat (length b)
  then ret (take (N.to_nat len) (drop (N.to_nat start) b))
  else revert SliceOutOfBounds.

(** [abi.decode(word, (uint256))] of a 32-byte word: the big-endian value. *)
Definition abi_decode_uint256 (w : bytes) : N :=
  fold_left (fun acc b => acc * 256 + Byte.to_N b) w 0.

(** ** The front end's action history *)

(** [addToHistory] of the web client, applied to the previous history: the
    new entry, stamped with the local time of day, goes in front of the
    first nine entries of the previous history. *)
Definition addToHistory (stamp action : string) (prev : list string) : list string :=
  (stamp ++ ": " ++ action)%string :: take 9 prev.

(** ** The contract *)

Section Contract.

(** [address(this)], the domain separator of the commitment. *)
Variable this : N.

(** [keccak256(abi.encode(cts, addr))]. *)
Variable keccak256_encode : list N -> N -> N.

(** [FHE.checkSignatures(requestId, cleartexts, proof)]: [true] when the
    call returns, [false] when it reverts. *)
Variable checkSignatures : N -> bytes -> bytes -> bool.

(** *** Modifiers *)

Definition onlyOwner (env : Env) : M unit :=
  let* s := get in
  revertIf (negb (N.eqb (msg_sender env) (owner s))) NotOwner.

Definition onlyProvider (env : Env) : M unit :=
  let* s := get in
  revertIf (negb (providerAt s (msg_sender env))) NotProvider.

Definition whenNotPaused : M unit :=
  let* s := get in
  revertIf (paused s) PausedState.

Definition respectCooldown (env : Env) (user : N)
    (cooldownMapping : State -> gmap N N) : M unit :=
  let* s := get in
  let* deadline := checked_add (timeAt (cooldownMapping s) user) (cooldownSeconds s) in
  revertIf (N.ltb (block_timestamp env) deadline) CooldownActive.

(** *** Constructor and administration *)

Definition constructor (deployer : N) : State :=
  mkState deployer ∅ false 0 ∅ ∅ 0 ∅ ∅ ∅ ∅.

Definition transferOwnership (env : Env) (newOwner : N) : M unit :=
  onlyOwner env >>
  let* s := get in
  let oldOwner := owner s in
  modify (set_owner newOwner) >>
  emit (OwnershipTransferred oldOwner newOwner).

Definition addProvider (env : Env) (provider : N) : M unit :=
  onlyOwner env >>
  modify (fun s => set_isProvider (<[provider := true]> (isProvider s)) s) >>
  emit (ProviderAdded provider).

Definition removeProvider (env : Env) (provider : N) : M unit :=
  onlyOwner env >>
  modify (fun s => set_isProvider (delete provider (isProvider s)) s) >>
  emit (ProviderRemoved provider).

Definition setPaused (env : Env) (_paused : bool) : M unit :=
  onlyOwner env >>
  if _paused
  then modify (set_paused true) >> emit (Paused (msg_sender env))
  else modify (set_paused false) >> emit (Unpaused (msg_sender env)).

Definition setCooldownSeconds (env : Env) (newCooldownSeconds : N) : M unit :=
  onlyOwner env >>
  let* s := get in
  let oldCooldown := cooldownSeconds s in
  modify (set_cooldownSeconds newCooldownSeconds) >>
  emit (CooldownSecondsSet oldCooldown newCooldownSeconds).

(** *** Batches and records *)

Definition openBatch (env : Env) : M unit :=
  onlyOwner env >>
  whenNotPaused >>
  let* s := get in
  let* next := checked_add (currentBatchId s) 1 in
  modify (set_currentBatchId next) >>
  modify (fun s => set_isBatchOpen (<[currentBatchId s := true]> (isBatchOpen s)) s) >>
  let* s := get in
  emit (BatchOpened (currentBatchId s)).

Definition closeBatch (env : Env) (batch : N) : M unit :=
  onlyOwner env >>
  let* s := get in
  revertIf (negb (batchOpenAt s batch)) BatchClosedOrInvalid >>
  modify (fun s => set_isBatchOpen (<[batch := false]> (isBatchOpen s)) s) >>
  emit (BatchClosed batch).

Definition submitLemming (env : Env) (batch encryptedAbility encryptedX encryptedY : N)
    : M unit :=
  onlyProvider env >>
  whenNotPaused >>
  respectCooldown env (msg_sender env) lastSubmissionTime >>
  let* s := get in
  revertIf (negb (batchOpenAt s batch)) BatchClosedOrInvalid >>
  let* lemmingId := checked_add (countAt s batch) 1 in
  modify (fun s => set_lemmingCountInBatch (<[batch := lemmingId]> (lemmingCountInBatch s)) s) >>
  modify (fun s => set_lemmings
    (<[(batch, lemmingId) := mkLemming encryptedAbility encryptedX encryptedY]> (lemmings s)) s) >>
  modify (fun s => set_lastSubmissionTime
    (<[msg_sender env := block_timestamp env]> (lastSubmissionTime s)) s) >>
  emit (LemmingSubmitted (msg_sender env) batch lemmingId).

(** The loop [for (i = 1; i <= numLemmings; i++)] that fills the array of
    handles: ability, x, y of record 1, then of record 2, and so on. *)
Definition batchCiphertexts (s : State) (batch numLemmings : N) : list N :=
  flat_map
    (fun i => let lemming := lemmingAt s batch (N.of_nat i) in
              [ability lemming; x lemming; y lemming])
    (seq 1 (N.to_nat numLemmings)).

Definition _hashCiphertexts (cts : list N) : N := keccak256_encode cts this.

(** *** Decryption request and callback *)

Definition requestBatchDecryption (env : Env) (batch : N) : M unit :=
  onlyOwner env >>
  whenNotPaused >>
  respectCooldown env (msg_sender env) lastDecryptionRequestTime >>
  let* s := get in
  revertIf (N.eqb (countAt s batch) 0) InvalidBatchId >>
  let numLemmings := countAt s batch in
  let* _len := checked_mul numLemmings 3 in
  let cts := batchCiphertexts s batch numLemmings in
  let hash := _hashCiphertexts cts in
  let requestId := fhe_requestId env in
  modify (fun s => set_decryptionContexts
    (<[requestId := mkContext batch hash false]> (decryptionContexts s)) s) >>
  modify (fun s => set_lastDecryptionRequestTime
    (<[msg_sender env := block_timestamp env]> (lastDecryptionRequestTime s)) s) >>
  emit (DecryptionRequested requestId batch hash).

(** The loop [for (i = 0; i < numLemmings; i++)] of the callback, with [k]
    iterations left: three words are sliced off at [cleartextIdx], which
    advances by 32 after each. *)
Fixpoint decodeLoop (k : nat) (cleartexts : bytes) (cleartextIdx : N)
    (abilities xs ys : list N) : M (list N * list N * list N) :=
  match k with
  | O => ret (abilities, xs, ys)
  | S k' =>
      let* w1 := slice cleartexts cleartextIdx 32 in
      let* idx1 := checked_add cleartextIdx 32 in
      let* w2 := slice cleartexts idx1 32 in
      let* idx2 := checked_add idx1 32 in
      let* w3 := slice cleartexts idx2 32 in
      let* idx3 := checked_add idx2 32 in
      decodeLoop k' cleartexts idx3
        (abilities ++ [abi_decode_uint256 w1])
        (xs ++ [abi_decode_uint256 w2])
        (ys ++ [abi_decode_uint256 w3])
  end.

Definition myCallback (requestId : N) (cleartexts proof : bytes) : M unit :=
  let* s := get in
  let context := contextAt s requestId in
  revertIf (processed context) ReplayAttempt >>
  let numLemmings := countAt s (batchId context) in
  revertIf (N.eqb numLemmings 0) InvalidBatchId >>
  let* _len := checked_mul numLemmings 3 in
  let currentCts := batchCiphertexts s (batchId context) numLemmings in
  let currentHash := _hashCiphertexts currentCts in
  revertIf (negb (N.eqb currentHash (stateHash context))) StateMismatch >>
  revertIf (negb (checkSignatures requestId cleartexts proof)) SignaturesRejected >>
  let* decoded := decodeLoop (N.to_nat numLemmings) cleartexts 0 [] [] [] in
  modify (fun s => set_decryptionContexts
    (<[requestId := mkContext (batchId (contextAt s requestId))
                              (stateHash (contextAt s requestId)) true]>
       (decryptionContexts s)) s) >>
  emit (DecryptionCompleted requestId (batchId context)
          (fst (fst decoded)) (snd (fst decoded)) (snd decoded)).

(** *** Transactions *)

Inductive Call : Type :=
| TransferOwnership (newOwner : N)
| AddProvider (provider : N)
| RemoveProvider (provider : N)
| SetPaused (_paused : bool)
| SetCooldownSeconds (newCooldownSeconds : N)
| OpenBatch
| CloseBatch (batch : N)
| SubmitLemming (batch encryptedAbility encryptedX encryptedY : N)
| RequestBatchDecryption (batch : N)
| MyCallback (requestId : N) (cleartexts proof : bytes).

Definition run (env : Env) (c : Call) : M unit :=
  match c with
  | TransferOwnership newOwner => transferOwnership env newOwner
  | AddProvider provider => addProvider env provider
  | RemoveProvider provider => removeProvider env provider
  | SetPaused p => setPaused env p
  | SetCooldownSeconds n => setCooldownSeconds env n
  | OpenBatch => openBatch env
  | CloseBatch batch => closeBatch env batch
  | SubmitLemming batch a ex ey => submitLemming env batch a ex ey
  | RequestBatchDecryption batch => requestBatchDecryption env batch
  | MyCallback requestId cleartexts proof => myCallback requestId cleartexts proof
  end.

(** A transaction commits the storage and the events of a call that
    returns and rolls the storage back when the call reverts. *)
Definition transact (env : Env) (c : Call) (s : State) : State * list Event :=
  match run env c s with
  | Ok _ s' evs => (s', evs)
  | Revert _ _ => (s, [])
  end.

(** The contract's history: the storage and the event log after a
    sequence of transactions. *)
Fixpoint execute (tr : list (Env * Call)) (s : State) (log : list Event)
    : State * list Event :=
  match tr with
  | [] => (s, log)
  | (env, c) :: tr' =>
      let '(s', evs) := transact env c s in
      execute tr' s' (log ++ evs)
  end.

Definition deploy (deployer : N) (tr : list (Env * Call)) : State * list Event :=
  execute tr (constructor deployer) [OwnershipTransferred 0 deployer].


(** ** Vocabulary of the properties *)

(** The record ids announced for a batch, oldest first. *)
Fixpoint submittedIds (batch : N) (log : list Event) : list N :=
  match log with
  | [] => []
  | LemmingSubmitted _ b i :: log' =>
      if N.eqb b batch then i :: submittedIds batch log' else submittedIds batch log'
  | _ :: log' => submittedIds batch log'
  end.

(** The request ids under which [requestBatchDecryption] recorded a context. *)
Fixpoint requestedIds (log : list Event) : list N :=
  match log with
  | [] => []
  | DecryptionRequested r _ _ :: log' => r :: requestedIds log'
  | _ :: log' => requestedIds log'
  end.

(** The commitment tells two handle sequences apart. *)
Definition collision_free (cts1 cts2 : list N) : Prop :=
  cts1 <> cts2 -> _hashCiphertexts cts1 <> _hashCiphertexts cts2.

(** The [k]-th 32-byte word of a byte string, as an integer. *)
Definition wordAt (b : bytes) (k : nat) : N :=
  abi_decode_uint256 (take 32 (drop (32 * k) b)).

(** The storage a call leaves behind when it returns. *)
Definition submitted (env : Env) (batch a ex ey : N) (s : State) : State :=
  set_lastSubmissionTime (<[msg_sender env := block_timestamp env]> (lastSubmissionTime s))
    (set_lemmings (<[(batch, countAt s batch + 1) := mkLemming a ex ey]> (lemmings s))
       (set_lemmingCountInBatch (<[batch := countAt s batch + 1]> (lemmingCountInBatch s)) s)).

Definition requested (env : Env) (batch : N) (s : State) : State :=
  set_lastDecryptionRequestTime
    (<[msg_sender env := block_timestamp env]> (lastDecryptionRequestTime s))
    (set_decryptionContexts
       (<[fhe_requestId env :=
            mkContext batch
              (_hashCiphertexts (batchCiphertexts s batch (countAt s batch))) false]>
          (decryptionContexts s)) s).

Definition finalized (requestId : N) (s : State) : State :=
  set_decryptionContexts
    (<[requestId := mkContext (batchId (contextAt s requestId))
                              (stateHash (contextAt s requestId)) true]>
       (decryptionContexts s)) s.

Definition opened (s : State) : State :=
  set_isBatchOpen (<[currentBatchId s + 1 := true]> (isBatchOpen s))
    (set_currentBatchId (currentBatchId s + 1) s).

Definition closed (batch : N) (s : State) : State :=
  set_isBatchOpen (<[batch := false]> (isBatchOpen s)) s.

(** What the callback's decoding loop yields on a long enough byte string. *)
Definition decodedAbilities (n : nat) (b : bytes) : list N :=
  map (fun i => wordAt b (3 * i)) (seq 0 n).
Definition decodedXs (n : nat) (b : bytes) : list N :=
  map (fun i => wordAt b (3 * i + 1)) (seq 0 n).
Definition decodedYs (n : nat) (b : bytes) : list N :=
  map (fun i => wordAt b (3 * i + 2)) (seq 0 n).

(** A transaction in which the oracle hands out request id [r] again. *)
Definition reissues (r : N) (t : Env * Call) : Prop :=
  match snd t with
  | RequestBatchDecryption _ => fhe_requestId (fst t) = r
  | _ => False
  end.

Definition no_reissue (r : N) (tr : list (Env * Call)) : Prop :=
  Forall (fun t => ~ reissues r t) tr.

(** The three checks of the callback that precede its only write. *)
Definition checks_passed (requestId : N) (cleartexts proof : bytes) (s : State) : Prop :=
  let context := contextAt s requestId in
  processed context = false
  /\ _hashCiphertexts
       (batchCiphertexts s (batchId context) (countAt s (batchId context)))
     = stateHash context
  /\ checkSignatures requestId cleartexts proof = true.

(** The ids [1; 2; ...; n]. *)
Definition idsUpTo (n : N) : list N := map N.of_nat (seq 1 (N.to_nat n)).

(** Batches that are open or hold records have been allocated by
    [openBatch]: their id lies in [1..currentBatchId]. *)
Definition batch_inv (s : State) : Prop :=
  forall b, batchOpenAt s b = true \/ countAt s b <> 0 -> 1 <= b <= currentBatchId s.

(** The log accounts for the storage: every stored context was announced by
    a [DecryptionRequested] event, and the record ids announced for a batch
    are [1..lemmingCountInBatch]. *)
Definition log_inv (s : State) (log : list Event) : Prop :=
  (forall r, is_Some (decryptionContexts s !! r) -> In r (requestedIds log))
  /\ (forall b, submittedIds b log = idsUpTo (countAt s b)).

(** A batch that has been allocated and is not open. *)
Definition is_closed (b : N) (s : State) : Prop :=
  b <= currentBatchId s /\ batchOpenAt s b = false.

(** The batch ids announced by [openBatch], oldest first. *)
Fixpoint openedIds (log : list Event) : list N :=
  match log with
  | [] => []
  | BatchOpened b :: log' => b :: openedIds log'
  | _ :: log' => openedIds log'
  end.

(** The entry points that carry [onlyOwner]. *)
Definition owner_only (c : Call) : bool :=
  match c with
  | SubmitLemming _ _ _ _ => false
  | MyCallback _ _ _ => false
  | _ => true
  end.

(** A transaction that may touch the records of batch [b] or the context of
    request [r]: a submission to [b], a request answered with id [r], or a
    callback for [r]. *)
Definition interferes (b r : N) (t : Env * Call) : Prop :=
  match snd t with
  | SubmitLemming b' _ _ _ => b' = b
  | RequestBatchDecryption _ => fhe_requestId (fst t) = r
  | MyCallback r' _ _ => r' = r
  | _ => False
  end.

Definition quiet (b r : N) (tr : list (Env * Call)) : Prop :=
  Forall (fun t => ~ interferes b r t) tr.

(** The counters are 256-bit values. *)
Definition counters_inv (s : State) : Prop :=
  currentBatchId s <= MAX_UINT256 /\ forall b, countAt s b <= MAX_UINT256.

(** A batch stores a record under exactly the ids [1..lemmingCountInBatch]. *)
Definition records_inv (s : State) : Prop :=
  forall b i, is_Some (lemmings s !! (b, i)) <-> 1 <= i <= countAt s b.

(** Every stored context points at a batch that holds records. *)
Definition contexts_inv (s : State) : Prop :=
  forall r ctx, decryptionContexts s !! r = Some ctx -> countAt s (batchId ctx) <> 0.

(** How often a log announces the result of request [r]. *)
Fixpoint completions (r : N) (log : list Event) : nat :=
  match log with
  | [] => O
  | DecryptionCompleted r' _ _ _ _ :: log' =>
      if N.eqb r' r then S (completions r log') else completions r log'
  | _ :: log' => completions r log'
  end.

(** ** Each function as a decision list *)

Arguments MAX_UINT256 : simpl never.
Arguments providerAt : simpl never.
Arguments batchOpenAt : simpl never.
Arguments countAt : simpl never.
Arguments contextAt : simpl never.
Arguments timeAt : simpl never.
Arguments batchCiphertexts : simpl never.
Arguments N.add : simpl never.
Arguments N.mul : simpl never.
Arguments N.leb : simpl never.
Arguments N.ltb : simpl never.
Arguments N.eqb : simpl never.

Ltac unfold_monad :=
  unfold onlyOwner, onlyProvider, whenNotPaused, respectCooldown,
    checked_add, checked_mul, revertIf, bind, get, modify, emit, ret, revert.

Ltac split_ifs :=
  repeat (cbn; match goal with
               | |- context [if ?c then _ else _] => destruct c eqn:?
               end);
  cbn; try reflexivity.

Lemma submitLemming_eq env batch a ex ey s :
  submitLemming env batch a ex ey s =
    if negb (providerAt s (msg_sender env)) then Revert NotProvider s
    else if paused s then Revert PausedState s
    else if timeAt (lastSubmissionTime s) (msg_sender env) + cooldownSeconds s
              <=? MAX_UINT256
    then
      if block_timestamp env
           <? timeAt (lastSubmissionTime s) (msg_sender env) + cooldownSeconds s
      then Revert CooldownActive s
      else if negb (batchOpenAt s batch) then Revert BatchClosedOrInvalid s
      else if countAt s batch + 1 <=? MAX_UINT256
      then Ok tt (submitted env batch a ex ey s)
             [LemmingSubmitted (msg_sender env) batch (countAt s batch + 1)]
      else Revert (Panic 17) s
    else Revert (Panic 17) s.
Proof. unfold submitLemming. unfold_monad. split_ifs. Qed.

Lemma requestBatchDecryption_eq env batch s :
  requestBatchDecryption env batch s =
    if negb (N.eqb (msg_sender env) (owner s)) then Revert NotOwner s
    else if paused s then Revert PausedState s
    else if timeAt (lastDecryptionRequestTime s) (msg_sender env) + cooldownSeconds s
              <=? MAX_UINT256
    then
      if block_timestamp env
           <? timeAt (lastDecryptionRequestTime s) (msg_sender env) + cooldownSeconds s
      then Revert CooldownActive s
      else if N.eqb (countAt s batch) 0 then Revert InvalidBatchId s
      else if countAt s batch * 3 <=? MAX_UINT256
      then Ok tt (requested env batch s)
             [DecryptionRequested (fhe_requestId env) batch
                (_hashCiphertexts (batchCiphertexts s batch (countAt s batch)))]
      else Revert (Panic 17) s
    else Revert (Panic 17) s.
Proof. unfold requestBatchDecryption. unfold_monad. split_ifs. Qed.

Lemma openBatch_eq env s :
  openBatch env s =
    if negb (N.eqb (msg_sender env) (owner s)) then Revert NotOwner s
    else if paused s then Revert PausedState s
    else if currentBatchId s + 1 <=? MAX_UINT256
    then Ok tt (opened s) [BatchOpened (currentBatchId s + 1)]
    else Revert (Panic 17) s.
Proof. unfold openBatch. unfold_monad. split_ifs. Qed.

Lemma closeBatch_eq env batch s :
  closeBatch env batch s =
    if negb (N.eqb (msg_sender env) (owner s)) then Revert NotOwner s
    else if negb (batchOpenAt s batch) then Revert BatchClosedOrInvalid s
    else Ok tt (closed batch s) [BatchClosed batch].
Proof. unfold closeBatch. unfold_monad. split_ifs. Qed.

Lemma transferOwnership_eq env newOwner s :
  transferOwnership env newOwner s =
    if negb (N.eqb (msg_sender env) (owner s)) then Revert NotOwner s
    else Ok tt (set_owner newOwner s) [OwnershipTransferred (owner s) newOwner].
Proof. unfold transferOwnership. unfold_monad. split_ifs. Qed.

Lemma addProvider_eq env provider s :
  addProvider env provider s =
    if negb (N.eqb (msg_sender env) (owner s)) then Revert NotOwner s
    else Ok tt (set_isProvider (<[provider := true]> (isProvider s)) s)
           [ProviderAdded provider].
Proof. unfold addProvider. unfold_monad. split_ifs. Qed.

Lemma removeProvider_eq env provider s :
  removeProvider env provider s =
    if negb (N.eqb (msg_sender env) (owner s)) then Revert NotOwner s
    else Ok tt (set_isProvider (delete provider (isProvider s)) s)
           [ProviderRemoved provider].
Proof. unfold removeProvider. unfold_monad. split_ifs. Qed.

Lemma setPaused_eq env p s :
  setPaused env p s =
    if negb (N.eqb (msg_sender env) (owner s)) then Revert NotOwner s
    else if p then Ok tt (set_paused true s) [Paused (msg_sender env)]
    else Ok tt (set_paused false s) [Unpaused (msg_sender env)].
Proof. unfold setPaused. unfold_monad. destruct p; split_ifs. Qed.

Lemma setCooldownSeconds_eq env n s :
  setCooldownSeconds env n s =
    if negb (N.eqb (msg_sender env) (owner s)) then Revert NotOwner s
    else Ok tt (set_cooldownSeconds n s) [CooldownSecondsSet (cooldownSeconds s) n].
Proof. unfold setCooldownSeconds. unfold_monad. split_ifs. Qed.

(** The decoding loop reads [cleartexts] and nothing else: it neither
    writes storage nor emits. *)
Lemma decodeLoop_pure k cleartexts : forall idx abilities xs ys s,
  match decodeLoop k cleartexts idx abilities xs ys s with
  | Ok _ s' evs => s' = s /\ evs = []
  | Revert _ s' => s' = s
  end.
Proof.
  induction k as [|k IH]; intros idx abilities xs ys s; [cbn; auto|].
  cbn [decodeLoop]. unfold slice. unfold_monad.
  repeat (match goal with
          | |- context [if ?c then _ else _] => destruct c
          end; try reflexivity).
  match goal with |- context [decodeLoop k ?c ?i ?a ?b ?d s] =>
    specialize (IH i a b d s); destruct (decodeLoop k c i a b d s) end.
  - destruct IH as [-> ->]. auto.
  - exact IH.
Qed.

Lemma myCallback_eq requestId cleartexts proof s :
  myCallback requestId cleartexts proof s =
    let context := contextAt s requestId in
    let numLemmings := countAt s (batchId context) in
    if processed context then Revert ReplayAttempt s
    else if N.eqb numLemmings 0 then Revert InvalidBatchId s
    else if numLemmings * 3 <=? MAX_UINT256
    then
      if negb (N.eqb (_hashCiphertexts (batchCiphertexts s (batchId context) numLemmings))
                     (stateHash context))
      then Revert StateMismatch s
      else if negb (checkSignatures requestId cleartexts proof)
      then Revert SignaturesRejected s
      else match decodeLoop (N.to_nat numLemmings) cleartexts 0 [] [] [] s with
           | Ok decoded _ _ =>
               Ok tt (finalized requestId s)
                 [DecryptionCompleted requestId (batchId context)
                    (fst (fst decoded)) (snd (fst decoded)) (snd decoded)]
           | Revert e _ => Revert e s
           end
    else Revert (Panic 17) s.
Proof.
  unfold myCallback. unfold_monad. cbv zeta.
  repeat (match goal with
          | |- context [if ?c then _ else _] => destruct c
          end; try reflexivity).
  pose proof (decodeLoop_pure (N.to_nat (countAt s (batchId (contextAt s requestId))))
                cleartexts 0 [] [] [] s) as Hp.
  destruct (decodeLoop _ cleartexts 0 [] [] [] s).
  - destruct Hp as [-> ->]. reflexivity.
  - subst. reflexivity.
Qed.

(** ** Atomicity *)

Ltac by_cases_in H :=
  repeat match type of H with
         | context [if ?c then _ else _] => destruct c eqn:?
         | context [match ?d with Ok _ _ _ => _ | Revert _ _ => _ end] => destruct d eqn:?
         end.

Ltac expose_call H :=
  cbn [run] in H;
  first [ rewrite transferOwnership_eq in H | rewrite addProvider_eq in H
        | rewrite removeProvider_eq in H | rewrite setPaused_eq in H
        | rewrite setCooldownSeconds_eq in H | rewrite openBatch_eq in H
        | rewrite closeBatch_eq in H | rewrite submitLemming_eq in H
        | rewrite requestBatchDecryption_eq in H | rewrite myCallback_eq in H ];
  cbv zeta in H.

Lemma run_revert_same env c s e s' :
  run env c s = Revert e s' -> s' = s.
Proof.
  intros H. destruct c; expose_call H; by_cases_in H; congruence.
Qed.

Lemma transact_revert env c s e s' :
  run env c s = Revert e s' -> transact env c s = (s, []).
Proof. intros H. unfold transact. now rewrite H. Qed.

Lemma transact_ok env c s s' evs :
  run env c s = Ok tt s' evs -> transact env c s = (s', evs).
Proof. intros H. unfold transact. now rewrite H. Qed.

(** C4. Every operation is all-or-nothing.  When a call of any of the ten
    entry points fails, with whatever error, the storage at the point of the
    revert is the storage before the call (no write precedes a failure), the
    transaction leaves the storage as it was and logs nothing. *)
Theorem C4_failure_leaves_state_unchanged env c s e s' :
  run env c s = Revert e s' ->
  s' = s /\ transact env c s = (s, []).
Proof.
  intros H. split.
  - exact (run_revert_same _ _ _ _ _ H).
  - exact (transact_revert _ _ _ _ _ H).
Qed.

(** ** Reading the storage a call leaves behind *)

Lemma contextAt_finalized r r' s :
  contextAt (finalized r s) r' =
    if decide (r = r')
    then mkContext (batchId (contextAt s r)) (stateHash (contextAt s r)) true
    else contextAt s r'.
Proof.
  unfold contextAt, finalized; cbn. rewrite lookup_insert.
  destruct (decide (r = r')); reflexivity.
Qed.

Lemma contextAt_requested env batch r' s :
  contextAt (requested env batch s) r' =
    if decide (fhe_requestId env = r')
    then mkContext batch
           (_hashCiphertexts (batchCiphertexts s batch (countAt s batch))) false
    else contextAt s r'.
Proof.
  unfold contextAt, requested; cbn. rewrite lookup_insert.
  destruct (decide (fhe_requestId env = r')); reflexivity.
Qed.

Lemma countAt_submitted env batch a ex ey b' s :
  countAt (submitted env batch a ex ey s) b' =
    if decide (batch = b') then countAt s batch + 1 else countAt s b'.
Proof.
  unfold countAt, submitted; cbn. rewrite lookup_insert.
  destruct (decide (batch = b')); reflexivity.
Qed.

Lemma lemmingAt_submitted env batch a ex ey b' i s :
  lemmingAt (submitted env batch a ex ey s) b' i =
    if decide ((batch, countAt s batch + 1) = (b', i))
    then mkLemming a ex ey else lemmingAt s b' i.
Proof.
  unfold lemmingAt, submitted; cbn. rewrite lookup_insert.
  destruct (decide ((batch, countAt s batch + 1) = (b', i))); reflexivity.
Qed.

Lemma batchOpenAt_opened b s :
  batchOpenAt (opened s) b =
    if decide (currentBatchId s + 1 = b) then true else batchOpenAt s b.
Proof.
  unfold batchOpenAt, opened; cbn. rewrite lookup_insert.
  destruct (decide (currentBatchId s + 1 = b)); reflexivity.
Qed.

Lemma batchOpenAt_closed batch b s :
  batchOpenAt (closed batch s) b =
    if decide (batch = b) then false else batchOpenAt s b.
Proof.
  unfold batchOpenAt, closed; cbn. rewrite lookup_insert.
  destruct (decide (batch = b)); reflexivity.
Qed.

(** ** Exactly-once finalization *)

Lemma callback_ok_checks requestId cleartexts proof s s1 evs :
  myCallback requestId cleartexts proof s = Ok tt s1 evs ->
  checks_passed requestId cleartexts proof s /\ s1 = finalized requestId s.
Proof.
  intros H. rewrite myCallback_eq in H. cbv zeta in H. unfold checks_passed.
  by_cases_in H; try discriminate.
  inversion H; subst.
  repeat match goal with
         | E : negb _ = false |- _ => apply negb_false_iff in E
         end.
  repeat split; auto. now apply N.eqb_eq.
Qed.

Lemma processed_only_by_callback env c s s' evs r :
  run env c s = Ok tt s' evs ->
  processed (contextAt s r) = false ->
  processed (contextAt s' r) = true ->
  exists cleartexts proof,
    c = MyCallback r cleartexts proof /\ checks_passed r cleartexts proof s.
Proof.
  intros H Hf Ht.
  destruct c; cbn [run] in H;
    try (expose_call H; by_cases_in H; try discriminate; inversion H; subst;
         change (processed (contextAt s r) = true) in Ht; congruence).
  - rewrite requestBatchDecryption_eq in H. by_cases_in H; try discriminate.
    inversion H; subst. rewrite contextAt_requested in Ht.
    destruct (decide (fhe_requestId env = r)); cbn in Ht; congruence.
  - destruct (callback_ok_checks _ _ _ _ _ _ H) as [Hc ->].
    rewrite contextAt_finalized in Ht.
    destruct (decide (requestId = r)) as [->|]; [eauto | congruence].
Qed.

Lemma processed_stable env c s r :
  ~ reissues r (env, c) ->
  processed (contextAt s r) = true ->
  processed (contextAt (fst (transact env c s)) r) = true.
Proof.
  intros Hn Ht. unfold transact.
  destruct (run env c s) as [[] s' evs|e s'] eqn:H; cbn [fst]; [|exact Ht].
  destruct c; cbn [run] in H;
    try (expose_call H; by_cases_in H; try discriminate; inversion H; subst;
         exact Ht).
  - rewrite requestBatchDecryption_eq in H. by_cases_in H; try discriminate.
    inversion H; subst. rewrite contextAt_requested.
    destruct (decide (fhe_requestId env = r)); [|exact Ht].
    exfalso. apply Hn. assumption.
  - destruct (callback_ok_checks _ _ _ _ _ _ H) as [_ ->].
    rewrite contextAt_finalized. destruct (decide (requestId = r)); auto.
Qed.

Lemma processed_stable_trace r tr : forall s log,
  no_reissue r tr ->
  processed (contextAt s r) = true ->
  processed (contextAt (fst (execute tr s log)) r) = true.
Proof.
  induction tr as [|[env c] tr IH]; intros s log Hn Ht; [exact Ht|].
  inversion Hn as [|? ? Hhd Htl]; subst.
  cbn [execute].
  pose proof (processed_stable env c s r Hhd Ht) as Hs.
  destruct (transact env c s) as [s' evs]. cbn [fst] in Hs.
  now apply IH.
Qed.

Lemma replay_rejected r cleartexts proof s :
  processed (contextAt s r) = true ->
  myCallback r cleartexts proof s = Revert ReplayAttempt s.
Proof. intros H. rewrite myCallback_eq. cbv zeta. now rewrite H. Qed.

(** C1. [processed] of a request id goes from false to true at most once.
    A callback that returns had the replay check, the commitment re-check
    and the proof verification succeed on the storage it started from, and
    leaves [processed] set.  From then on, through any later transactions in
    which the oracle does not hand out the same id again, [processed] stays
    set and every callback for that id, with any cleartexts and proof,
    reverts with [ReplayAttempt] on unchanged storage.  No other call ever
    sets the flag. *)
Theorem C1_processed_set_at_most_once requestId cleartexts proof s s1 evs :
  myCallback requestId cleartexts proof s = Ok tt s1 evs ->
  checks_passed requestId cleartexts proof s
  /\ processed (contextAt s1 requestId) = true
  /\ (forall tr log, no_reissue requestId tr ->
        let s2 := fst (execute tr s1 log) in
        processed (contextAt s2 requestId) = true
        /\ forall env cleartexts' proof',
             myCallback requestId cleartexts' proof' s2 = Revert ReplayAttempt s2
             /\ transact env (MyCallback requestId cleartexts' proof') s2 = (s2, []))
  /\ (forall env c t t' evs' r,
        run env c t = Ok tt t' evs' ->
        processed (contextAt t r) = false ->
        processed (contextAt t' r) = true ->
        exists cleartexts' proof',
          c = MyCallback r cleartexts' proof' /\ checks_passed r cleartexts' proof' t).
Proof.
  intros H. destruct (callback_ok_checks _ _ _ _ _ _ H) as [Hc ->].
  assert (Hp : processed (contextAt (finalized requestId s) requestId) = true).
  { rewrite contextAt_finalized. destruct (decide (requestId = requestId)); [reflexivity | congruence]. }
  split; [exact Hc|]. split; [exact Hp|]. split.
  - intros tr log Hn s2.
    assert (Hp2 : processed (contextAt s2 requestId) = true)
      by (apply processed_stable_trace; assumption).
    split; [exact Hp2|]. intros env ct' pf'.
    pose proof (replay_rejected requestId ct' pf' s2 Hp2) as Hr.
    split; [exact Hr|]. unfold transact. cbn [run]. now rewrite Hr.
  - intros env c t t' evs' r. apply processed_only_by_callback.
Qed.

(** ** Invariants of the reachable states *)

Ltac on_success H :=
  expose_call H; by_cases_in H; try discriminate;
  injection H as <- <-.

Lemma batch_inv_zero s :
  batch_inv s -> batchOpenAt s 0 = false /\ countAt s 0 = 0.
Proof.
  intros Hi. split.
  - destruct (batchOpenAt s 0) eqn:E; [|reflexivity].
    destruct (Hi 0 (or_introl E)). lia.
  - destruct (N.eq_dec (countAt s 0) 0) as [E|E]; [exact E|].
    destruct (Hi 0 (or_intror E)). lia.
Qed.

Lemma batch_inv_constructor deployer : batch_inv (constructor deployer).
Proof. intros b [H|H]; [discriminate H | now elim H]. Qed.

Lemma batch_inv_step env c s :
  batch_inv s -> batch_inv (fst (transact env c s)).
Proof.
  intros Hi. unfold transact.
  destruct (run env c s) as [[] s' evs|e s'] eqn:H; cbn [fst]; [|exact Hi].
  destruct c; on_success H; try exact Hi.
  - (* openBatch *)
    intros b Hb. change (currentBatchId (opened s)) with (currentBatchId s + 1).
    change (countAt (opened s) b) with (countAt s b) in Hb.
    rewrite batchOpenAt_opened in Hb.
    destruct (decide (currentBatchId s + 1 = b)) as [<-|]; [lia|].
    specialize (Hi b Hb). lia.
  - (* closeBatch *)
    intros b Hb. change (currentBatchId (closed batch s)) with (currentBatchId s).
    change (countAt (closed batch s) b) with (countAt s b) in Hb.
    rewrite batchOpenAt_closed in Hb. apply Hi.
    destruct (decide (batch = b)); [|exact Hb].
    destruct Hb as [Hb|Hb]; [discriminate | now right].
  - (* submitLemming *)
    intros b Hb.
    change (currentBatchId (submitted env batch encryptedAbility encryptedX encryptedY s))
      with (currentBatchId s).
    change (batchOpenAt (submitted env batch encryptedAbility encryptedX encryptedY s) b)
      with (batchOpenAt s b) in Hb.
    rewrite countAt_submitted in Hb.
    destruct (decide (batch = b)) as [<-|]; [|exact (Hi b Hb)].
    apply Hi. left.
    match goal with E : negb _ = false |- _ => now apply negb_false_iff in E end.
Qed.

Lemma submittedIds_app b l1 l2 :
  submittedIds b (l1 ++ l2) = submittedIds b l1 ++ submittedIds b l2.
Proof.
  induction l1 as [|ev l1 IH]; [reflexivity|].
  destruct ev; cbn [app submittedIds]; try exact IH.
  destruct (N.eqb batch b); [cbn [app]; now f_equal | exact IH].
Qed.

Lemma requestedIds_app l1 l2 :
  requestedIds (l1 ++ l2) = requestedIds l1 ++ requestedIds l2.
Proof.
  induction l1 as [|ev l1 IH]; [reflexivity|].
  destruct ev; cbn [app requestedIds]; try exact IH.
  now f_equal.
Qed.

Lemma idsUpTo_succ n : idsUpTo (n + 1) = idsUpTo n ++ [n + 1].
Proof.
  unfold idsUpTo. replace (N.to_nat (n + 1)) with (S (N.to_nat n)) by lia.
  rewrite seq_S, map_app. cbn [map]. do 2 f_equal. lia.
Qed.

Lemma log_inv_constructor deployer :
  log_inv (constructor deployer) [OwnershipTransferred 0 deployer].
Proof.
  split.
  - intros r [c Hc]. cbn in Hc. rewrite lookup_empty in Hc. discriminate.
  - intros b. reflexivity.
Qed.

Lemma log_inv_step env c s log :
  batch_inv s -> log_inv s log ->
  log_inv (fst (transact env c s)) (log ++ snd (transact env c s)).
Proof.
  intros Hb [Hr Hs]. unfold transact.
  destruct (run env c s) as [[] s' evs|e s'] eqn:H; cbn [fst snd];
    [|rewrite app_nil_r; now split].
  split.
  - (* stored contexts were requested *)
    intros r. rewrite requestedIds_app.
    destruct c; on_success H; cbn [requestedIds]; rewrite ?app_nil_r;
      try exact (Hr r).
    + unfold requested; cbn. rewrite lookup_insert.
      destruct (decide (fhe_requestId env = r)) as [->|].
      * intros _. apply in_or_app. right. now left.
      * intros Hx. apply in_or_app. left. now apply Hr.
    + unfold finalized; cbn. rewrite lookup_insert.
      destruct (decide (requestId = r)) as [->|]; [|exact (Hr r)].
      intros _. apply Hr.
      destruct (decryptionContexts s !! r) as [ctx|] eqn:E; [eauto|].
      exfalso.
      assert (Hz : contextAt s r = zeroContext) by (unfold contextAt; now rewrite E).
      rewrite Hz in *. cbn [batchId zeroContext] in *.
      destruct (batch_inv_zero s Hb) as [_ H0].
      rewrite H0 in *. discriminate.
  - (* announced record ids are dense *)
    intros b. rewrite submittedIds_app.
    destruct c; on_success H; cbn [submittedIds]; rewrite ?app_nil_r;
      try exact (Hs b).
    rewrite countAt_submitted.
    destruct (decide (batch = b)) as [->|Hne].
    + rewrite N.eqb_refl, idsUpTo_succ. now rewrite Hs.
    + apply N.eqb_neq in Hne. rewrite Hne, app_nil_r. apply Hs.
Qed.

Lemma execute_inv tr : forall s log,
  batch_inv s -> log_inv s log ->
  batch_inv (fst (execute tr s log))
  /\ log_inv (fst (execute tr s log)) (snd (execute tr s log)).
Proof.
  induction tr as [|[env c] tr IH]; intros s log Hb Hl; [now split|].
  cbn [execute].
  pose proof (batch_inv_step env c s Hb) as Hb'.
  pose proof (log_inv_step env c s log Hb Hl) as Hl'.
  destruct (transact env c s) as [s' evs]. now apply IH.
Qed.

Lemma deploy_inv deployer tr :
  batch_inv (fst (deploy deployer tr))
  /\ log_inv (fst (deploy deployer tr)) (snd (deploy deployer tr)).
Proof.
  apply execute_inv; [apply batch_inv_constructor | apply log_inv_constructor].
Qed.

(** ** Callbacks for unknown request ids *)

Lemma unknown_request_reverts s r cleartexts proof :
  countAt s 0 = 0 ->
  decryptionContexts s !! r = None ->
  myCallback r cleartexts proof s = Revert InvalidBatchId s.
Proof.
  intros H0 Hn. rewrite myCallback_eq.
  assert (Hz : contextAt s r = zeroContext) by (unfold contextAt; now rewrite Hn).
  rewrite Hz. cbn [batchId processed zeroContext]. now rewrite H0.
Qed.

(** C3, as the code has it.  The contract defines no [UnknownRequest]
    error.  In every reachable state, a callback for a request id without a
    stored context reads the zero context: the replay check is the first
    check and passes ([processed] reads false), and the call reverts at the
    second check with [InvalidBatchId], on unchanged storage, whatever the
    commitment and whatever the proof verification would answer. *)
Theorem C3_unknown_request_invalid_batch deployer tr r cleartexts proof :
  let s := fst (deploy deployer tr) in
  decryptionContexts s !! r = None ->
  processed (contextAt s r) = false
  /\ myCallback r cleartexts proof s = Revert InvalidBatchId s
  /\ errorName InvalidBatchId <> "UnknownRequest"%string.
Proof.
  intros s Hn.
  destruct (deploy_inv deployer tr) as [Hb _]. fold s in Hb.
  destruct (batch_inv_zero s Hb) as [_ H0].
  split; [unfold contextAt; now rewrite Hn|].
  split; [now apply unknown_request_reverts | discriminate].
Qed.

(** C10. In every reachable state batch 0 is not open and holds no record.
    Hence a callback whose request id was never announced by
    [requestBatchDecryption] reads the zero context and reverts with
    [InvalidBatchId], before the proof is looked at, on unchanged storage. *)
Theorem C10_batch_zero_never_used deployer tr :
  let s := fst (deploy deployer tr) in
  let log := snd (deploy deployer tr) in
  batchOpenAt s 0 = false
  /\ countAt s 0 = 0
  /\ forall r, ~ In r (requestedIds log) ->
       contextAt s r = zeroContext
       /\ forall env cleartexts proof,
            myCallback r cleartexts proof s = Revert InvalidBatchId s
            /\ transact env (MyCallback r cleartexts proof) s = (s, []).
Proof.
  intros s log.
  destruct (deploy_inv deployer tr) as [Hb [Hr _]]. fold s in Hb, Hr. fold log in Hr.
  destruct (batch_inv_zero s Hb) as [Ho H0].
  split; [exact Ho|]. split; [exact H0|].
  intros r Hnr.
  assert (Hn : decryptionContexts s !! r = None).
  { destruct (decryptionContexts s !! r) eqn:E; [|reflexivity].
    exfalso. apply Hnr, Hr. rewrite E. eauto. }
  split; [unfold contextAt; now rewrite Hn|].
  intros env ct pf.
  pose proof (unknown_request_reverts s r ct pf H0 Hn) as Hrev.
  split; [exact Hrev|]. unfold transact. cbn [run]. now rewrite Hrev.
Qed.

(** ** State drift between request and callback *)

Lemma flat_map_triple_length {A : Type} (f : A -> N * N * N) (l : list A) :
  length (flat_map (fun a => [fst (fst (f a)); snd (fst (f a)); snd (f a)]) l)
  = (3 * length l)%nat.
Proof.
  induction l as [|a l IH]; [reflexivity|].
  cbn [flat_map]. rewrite length_app, IH. cbn [length]. lia.
Qed.

Lemma batchCiphertexts_length s b n :
  length (batchCiphertexts s b n) = (3 * N.to_nat n)%nat.
Proof.
  unfold batchCiphertexts.
  rewrite (flat_map_triple_length
             (fun i => (ability (lemmingAt s b (N.of_nat i)),
                        x (lemmingAt s b (N.of_nat i)),
                        y (lemmingAt s b (N.of_nat i))))).
  now rewrite length_seq.
Qed.

Lemma batchCiphertexts_grow s s' b n :
  batchCiphertexts s b n <> batchCiphertexts s' b (n + 1).
Proof.
  intros H. apply (f_equal (@length N)) in H.
  rewrite !batchCiphertexts_length in H. lia.
Qed.

(** C2. State drift is rejected.  A decryption request for a batch with
    [N] records returns; then one more record is submitted to the same,
    still open, batch and that call returns too.  If the commitment tells
    the sequence of [3 * N] handles from the one of [3 * (N + 1)] handles
    apart, the callback for that request reverts with [StateMismatch],
    whatever the cleartexts and the proof, and the storage stays as the
    submission left it. *)
Theorem C2_state_drift_rejected env1 env2 batch a ex ey s0 s1 evs1 s2 evs2 :
  requestBatchDecryption env1 batch s0 = Ok tt s1 evs1 ->
  submitLemming env2 batch a ex ey s1 = Ok tt s2 evs2 ->
  (countAt s0 batch + 1) * 3 <= MAX_UINT256 ->
  collision_free (batchCiphertexts s2 batch (countAt s0 batch + 1))
                 (batchCiphertexts s0 batch (countAt s0 batch)) ->
  countAt s2 batch = countAt s0 batch + 1
  /\ forall env cleartexts proof,
       myCallback (fhe_requestId env1) cleartexts proof s2 = Revert StateMismatch s2
       /\ transact env (MyCallback (fhe_requestId env1) cleartexts proof) s2 = (s2, []).
Proof.
  intros Hreq Hsub Hfit Hcf.
  rewrite requestBatchDecryption_eq in Hreq. by_cases_in Hreq; try discriminate.
  injection Hreq as <- <-.
  rewrite submitLemming_eq in Hsub. by_cases_in Hsub; try discriminate.
  injection Hsub as <- <-.
  set (s1 := requested env1 batch s0) in *.
  set (s2 := submitted env2 batch a ex ey s1).
  assert (Hctx : contextAt s2 (fhe_requestId env1)
                 = mkContext batch
                     (_hashCiphertexts (batchCiphertexts s0 batch (countAt s0 batch)))
                     false).
  { change (contextAt s2 (fhe_requestId env1)) with (contextAt s1 (fhe_requestId env1)).
    unfold s1. rewrite contextAt_requested.
    destruct (decide (fhe_requestId env1 = fhe_requestId env1)); [reflexivity|congruence]. }
  assert (Hcnt : countAt s2 batch = countAt s0 batch + 1).
  { unfold s2. rewrite countAt_submitted.
    destruct (decide (batch = batch)); [reflexivity|congruence]. }
  split; [exact Hcnt|].
  assert (Hrev : forall cleartexts proof,
            myCallback (fhe_requestId env1) cleartexts proof s2 = Revert StateMismatch s2).
  { intros ct pf. rewrite myCallback_eq. cbv zeta. rewrite Hctx.
    cbn [processed batchId stateHash]. rewrite Hcnt.
    replace (countAt s0 batch + 1 =? 0) with false by (symmetry; apply N.eqb_neq; lia).
    replace ((countAt s0 batch + 1) * 3 <=? MAX_UINT256) with true
      by (symmetry; now apply N.leb_le).
    replace (_hashCiphertexts (batchCiphertexts s2 batch (countAt s0 batch + 1))
             =? _hashCiphertexts (batchCiphertexts s0 batch (countAt s0 batch)))
      with false; [reflexivity|].
    symmetry. apply N.eqb_neq. apply Hcf.
    intros E. symmetry in E. revert E. apply batchCiphertexts_grow. }
  intros env ct pf. split; [apply Hrev|].
  unfold transact. cbn [run]. now rewrite Hrev.
Qed.

(** ** Decoding the cleartexts *)

Lemma slice_word (cleartexts : bytes) (j : nat) s :
  (32 * (j + 1) <= length cleartexts)%nat ->
  slice cleartexts (N.of_nat (32 * j)) 32 s
  = Ok (take 32 (drop (32 * j) cleartexts)) s [].
Proof.
  intros H. unfold slice.
  replace (N.of_nat (32 * j) + 32 <=? N.of_nat (length cleartexts)) with true
    by (symmetry; apply N.leb_le; lia).
  unfold ret. rewrite Nat2N.id. reflexivity.
Qed.

Lemma slice_short (cleartexts : bytes) (j : nat) s :
  (length cleartexts < 32 * (j + 1))%nat ->
  slice cleartexts (N.of_nat (32 * j)) 32 s = Revert SliceOutOfBounds s.
Proof.
  intros H. unfold slice.
  replace (N.of_nat (32 * j) + 32 <=? N.of_nat (length cleartexts)) with false
    by (symmetry; apply N.leb_gt; lia).
  reflexivity.
Qed.

Lemma checked_add_word (cleartexts : bytes) (j : nat) s :
  N.of_nat (length cleartexts) <= MAX_UINT256 ->
  (32 * (j + 1) <= length cleartexts)%nat ->
  checked_add (N.of_nat (32 * j)) 32 s = Ok (N.of_nat (32 * (j + 1))) s [].
Proof.
  intros Hmax H. unfold checked_add.
  replace (N.of_nat (32 * j) + 32) with (N.of_nat (32 * (j + 1))) by lia.
  replace (N.of_nat (32 * (j + 1)) <=? MAX_UINT256) with true
    by (symmetry; apply N.leb_le; lia).
  reflexivity.
Qed.

Lemma decodeLoop_long (cleartexts : bytes) k : forall j abilities xs ys s,
  N.of_nat (length cleartexts) <= MAX_UINT256 ->
  (32 * (3 * j + 3 * k) <= length cleartexts)%nat ->
  decodeLoop k cleartexts (N.of_nat (32 * (3 * j))) abilities xs ys s
  = Ok (abilities ++ map (fun i => wordAt cleartexts (3 * i)) (seq j k),
        xs ++ map (fun i => wordAt cleartexts (3 * i + 1)) (seq j k),
        ys ++ map (fun i => wordAt cleartexts (3 * i + 2)) (seq j k)) s [].
Proof.
  induction k as [|k IH]; intros j abilities xs ys s Hmax Hlen.
  - cbn. now rewrite !app_nil_r.
  - cbn [decodeLoop]. unfold bind.
    rewrite (slice_word cleartexts (3 * j) s) by lia.
    rewrite (checked_add_word cleartexts (3 * j) s Hmax) by lia.
    rewrite (slice_word cleartexts (3 * j + 1) s) by lia.
    rewrite (checked_add_word cleartexts (3 * j + 1) s Hmax) by lia.
    rewrite (slice_word cleartexts (3 * j + 1 + 1) s) by lia.
    rewrite (checked_add_word cleartexts (3 * j + 1 + 1) s Hmax) by lia.
    replace (3 * j + 1 + 1 + 1)%nat with (3 * S j)%nat by lia.
    rewrite IH by (try assumption; lia).
    cbn [seq map app]. rewrite <- !app_assoc. cbn [app].
    unfold wordAt.
    replace (3 * j + 1 + 1)%nat with (3 * j + 2)%nat by lia.
    reflexivity.
Qed.

Lemma decodeLoop_short (cleartexts : bytes) k : forall j abilities xs ys s,
  N.of_nat (length cleartexts) <= MAX_UINT256 ->
  (32 * j <= length cleartexts < 32 * (j + 3 * k))%nat ->
  decodeLoop k cleartexts (N.of_nat (32 * j)) abilities xs ys s
  = Revert SliceOutOfBounds s.
Proof.
  induction k as [|k IH]; intros j abilities xs ys s Hmax Hlen; [lia|].
  cbn [decodeLoop]. unfold bind.
  destruct (le_lt_dec (32 * (j + 1)) (length cleartexts)) as [H1|H1];
    [|now rewrite slice_short].
  rewrite slice_word, (checked_add_word cleartexts j s Hmax) by assumption.
  destruct (le_lt_dec (32 * (j + 1 + 1)) (length cleartexts)) as [H2|H2];
    [|now rewrite slice_short].
  rewrite slice_word, (checked_add_word cleartexts (j + 1) s Hmax) by assumption.
  destruct (le_lt_dec (32 * (j + 1 + 1 + 1)) (length cleartexts)) as [H3|H3];
    [|now rewrite slice_short].
  rewrite slice_word, (checked_add_word cleartexts (j + 1 + 1) s Hmax) by assumption.
  rewrite IH by (try assumption; lia). reflexivity.
Qed.

Lemma decodeLoop_indep k cleartexts : forall idx abilities xs ys s s',
  decodeLoop k cleartexts idx abilities xs ys s'
  = match decodeLoop k cleartexts idx abilities xs ys s with
    | Ok d _ evs => Ok d s' evs
    | Revert e _ => Revert e s'
    end.
Proof.
  induction k as [|k IH]; intros idx abilities xs ys s s'; [reflexivity|].
  cbn [decodeLoop]. unfold slice. unfold_monad.
  repeat (match goal with
          | |- context [if ?c then _ else _] => destruct c
          end; try reflexivity).
  match goal with |- context [decodeLoop k ?c ?i ?a ?b ?d s'] =>
    rewrite (IH i a b d s s'); destruct (decodeLoop k c i a b d s) end;
    reflexivity.
Qed.

Lemma myCallback_past_checks r cleartexts proof s :
  checks_passed r cleartexts proof s ->
  countAt s (batchId (contextAt s r)) <> 0 ->
  countAt s (batchId (contextAt s r)) * 3 <= MAX_UINT256 ->
  myCallback r cleartexts proof s
  = match decodeLoop (N.to_nat (countAt s (batchId (contextAt s r))))
            cleartexts 0 [] [] [] s with
    | Ok decoded _ _ =>
        Ok tt (finalized r s)
          [DecryptionCompleted r (batchId (contextAt s r))
             (fst (fst decoded)) (snd (fst decoded)) (snd decoded)]
    | Revert e _ => Revert e s
    end.
Proof.
  intros (Hp & Hh & Hs) Hn Hfit. rewrite myCallback_eq. cbv zeta.
  rewrite Hp, Hh, Hs, N.eqb_refl.
  apply N.eqb_neq in Hn. apply N.leb_le in Hfit. rewrite Hn, Hfit. reflexivity.
Qed.

Lemma callback_decodes_prefix r (cleartexts proof : bytes) s :
  let context := contextAt s r in
  let n := countAt s (batchId context) in
  checks_passed r cleartexts proof s ->
  n <> 0 -> n * 3 <= MAX_UINT256 ->
  N.of_nat (length cleartexts) <= MAX_UINT256 ->
  (3 * n * 32 <= N.of_nat (length cleartexts) ->
     myCallback r cleartexts proof s
     = Ok tt (finalized r s)
         [DecryptionCompleted r (batchId context)
            (decodedAbilities (N.to_nat n) cleartexts)
            (decodedXs (N.to_nat n) cleartexts)
            (decodedYs (N.to_nat n) cleartexts)])
  /\ (N.of_nat (length cleartexts) < 3 * n * 32 ->
        myCallback r cleartexts proof s = Revert SliceOutOfBounds s).
Proof.
  intros context n Hc Hn Hfit Hmax.
  pose proof (myCallback_past_checks r cleartexts proof s Hc Hn Hfit) as Hcb.
  fold context in Hcb. fold n in Hcb.
  split; intros Hlen; rewrite Hcb.
  - change 0 with (N.of_nat (32 * (3 * 0))).
    rewrite decodeLoop_long by (try assumption; lia). reflexivity.
  - change 0 with (N.of_nat (32 * 0)).
    rewrite decodeLoop_short by (try assumption; lia). reflexivity.
Qed.

(** C6, as the code has it.  Once the replay check, the commitment re-check
    and the proof verification have passed, the callback reads
    [3 * recordCount] big-endian 32-byte words from the front of
    [cleartexts]: word [3i] is the ability, word [3i+1] the x and word
    [3i+2] the y of record [i+1].  When [cleartexts] holds at least
    [3 * recordCount * 32] bytes the call returns, whatever follows those
    bytes; when it holds fewer the call reverts inside [slice], on unchanged
    storage.  The contract defines no [MalformedCleartexts] error and never
    compares the length with the expected size. *)
Theorem C6_decode_reads_prefix r (cleartexts proof : bytes) s :
  let context := contextAt s r in
  let n := countAt s (batchId context) in
  checks_passed r cleartexts proof s ->
  n <> 0 -> n * 3 <= MAX_UINT256 ->
  N.of_nat (length cleartexts) <= MAX_UINT256 ->
  (3 * n * 32 <= N.of_nat (length cleartexts) ->
     myCallback r cleartexts proof s
     = Ok tt (finalized r s)
         [DecryptionCompleted r (batchId context)
            (decodedAbilities (N.to_nat n) cleartexts)
            (decodedXs (N.to_nat n) cleartexts)
            (decodedYs (N.to_nat n) cleartexts)])
  /\ (N.of_nat (length cleartexts) < 3 * n * 32 ->
        myCallback r cleartexts proof s = Revert SliceOutOfBounds s).
Proof. exact (callback_decodes_prefix r cleartexts proof s). Qed.

(** ** The pause flag *)

Lemma owner_check_passes env s :
  msg_sender env = owner s -> negb (N.eqb (msg_sender env) (owner s)) = false.
Proof. intros ->. now rewrite N.eqb_refl. Qed.

Lemma myCallback_ignores_pause r cleartexts proof s :
  paused s = true ->
  myCallback r cleartexts proof s
  = match myCallback r cleartexts proof (set_paused false s) with
    | Ok a s' evs => Ok a (set_paused true s') evs
    | Revert e _ => Revert e s
    end.
Proof.
  intros Hp. rewrite !myCallback_eq. cbv zeta.
  change (contextAt (set_paused false s) r) with (contextAt s r).
  change (countAt (set_paused false s) (batchId (contextAt s r)))
    with (countAt s (batchId (contextAt s r))).
  change (batchCiphertexts (set_paused false s)) with (batchCiphertexts s).
  rewrite (decodeLoop_indep _ cleartexts 0 [] [] [] s (set_paused false s)).
  repeat (match goal with
          | |- context [if ?c then _ else _] => destruct c
          end; try reflexivity).
  destruct (decodeLoop _ cleartexts 0 [] [] [] s); [|reflexivity].
  f_equal. destruct s; cbn in Hp; subst. reflexivity.
Qed.

(** C5, as the code has it.  While the pause flag is set, [openBatch],
    [submitLemming] and [requestBatchDecryption] revert on unchanged
    storage, with [PausedState] once the caller has passed the role check
    that comes first.  No other entry point reads the flag: the owner's
    [setPaused] (either way), [transferOwnership], [addProvider],
    [removeProvider], [setCooldownSeconds] and [closeBatch] of an open batch
    return and take effect, and [myCallback] behaves as it does when the
    flag is clear. *)
Theorem C5_pause_gates_three_entry_points env s :
  paused s = true ->
  (exists e, openBatch env s = Revert e s
             /\ (msg_sender env = owner s -> e = PausedState))
  /\ (forall batch a ex ey,
        exists e, submitLemming env batch a ex ey s = Revert e s
                  /\ (providerAt s (msg_sender env) = true -> e = PausedState))
  /\ (forall batch,
        exists e, requestBatchDecryption env batch s = Revert e s
                  /\ (msg_sender env = owner s -> e = PausedState))
  /\ (msg_sender env = owner s ->
        setPaused env false s = Ok tt (set_paused false s) [Unpaused (msg_sender env)]
        /\ setPaused env true s = Ok tt (set_paused true s) [Paused (msg_sender env)]
        /\ (forall newOwner,
              transferOwnership env newOwner s
              = Ok tt (set_owner newOwner s) [OwnershipTransferred (owner s) newOwner])
        /\ (forall provider,
              addProvider env provider s
              = Ok tt (set_isProvider (<[provider := true]> (isProvider s)) s)
                  [ProviderAdded provider])
        /\ (forall provider,
              removeProvider env provider s
              = Ok tt (set_isProvider (delete provider (isProvider s)) s)
                  [ProviderRemoved provider])
        /\ (forall n,
              setCooldownSeconds env n s
              = Ok tt (set_cooldownSeconds n s) [CooldownSecondsSet (cooldownSeconds s) n])
        /\ (forall batch, batchOpenAt s batch = true ->
              closeBatch env batch s = Ok tt (closed batch s) [BatchClosed batch]))
  /\ (forall r cleartexts proof,
        myCallback r cleartexts proof s
        = match myCallback r cleartexts proof (set_paused false s) with
          | Ok a s' evs => Ok a (set_paused true s') evs
          | Revert e _ => Revert e s
          end).
Proof.
  intros Hp. repeat apply conj.
  - rewrite openBatch_eq, Hp.
    destruct (negb (msg_sender env =? owner s)) eqn:E; eexists; split; eauto.
    intros Ho. rewrite (owner_check_passes _ _ Ho) in E. discriminate.
  - intros batch a ex ey. rewrite submitLemming_eq, Hp.
    destruct (negb (providerAt s (msg_sender env))) eqn:E; eexists; split; eauto.
    intros Ho. rewrite Ho in E. discriminate.
  - intros batch. rewrite requestBatchDecryption_eq, Hp.
    destruct (negb (msg_sender env =? owner s)) eqn:E; eexists; split; eauto.
    intros Ho. rewrite (owner_check_passes _ _ Ho) in E. discriminate.
  - intros Ho. apply owner_check_passes in Ho.
    repeat apply conj; intros.
    + now rewrite setPaused_eq, Ho.
    + now rewrite setPaused_eq, Ho.
    + now rewrite transferOwnership_eq, Ho.
    + now rewrite addProvider_eq, Ho.
    + now rewrite removeProvider_eq, Ho.
    + now rewrite setCooldownSeconds_eq, Ho.
    + rewrite closeBatch_eq, Ho.
      match goal with H : batchOpenAt _ _ = true |- _ => now rewrite H end.
  - intros r ct pf. now apply myCallback_ignores_pause.
Qed.

(** ** The cooldown guard *)

Lemma timeAt_submitted env batch a ex ey u s :
  timeAt (lastSubmissionTime (submitted env batch a ex ey s)) u =
    if decide (msg_sender env = u) then block_timestamp env
    else timeAt (lastSubmissionTime s) u.
Proof.
  unfold timeAt, submitted; cbn. rewrite lookup_insert.
  destruct (decide (msg_sender env = u)); reflexivity.
Qed.

Lemma timeAt_requested env batch u s :
  timeAt (lastDecryptionRequestTime (requested env batch s)) u =
    if decide (msg_sender env = u) then block_timestamp env
    else timeAt (lastDecryptionRequestTime s) u.
Proof.
  unfold timeAt, requested; cbn. rewrite lookup_insert.
  destruct (decide (msg_sender env = u)); reflexivity.
Qed.

Lemma submit_cooldown env batch a ex ey s :
  providerAt s (msg_sender env) = true ->
  paused s = false ->
  timeAt (lastSubmissionTime s) (msg_sender env) + cooldownSeconds s <= MAX_UINT256 ->
  ((Z.of_N (block_timestamp env)
      - Z.of_N (timeAt (lastSubmissionTime s) (msg_sender env))
    < Z.of_N (cooldownSeconds s))%Z
   <-> submitLemming env batch a ex ey s = Revert CooldownActive s)
  /\ (forall s' evs, submitLemming env batch a ex ey s = Ok tt s' evs ->
        timeAt (lastSubmissionTime s') (msg_sender env) = block_timestamp env).
Proof.
  intros Hprov Hpause Hfit. rewrite submitLemming_eq, Hprov, Hpause. cbn [negb].
  apply N.leb_le in Hfit. rewrite Hfit.
  destruct (block_timestamp env
              <? timeAt (lastSubmissionTime s) (msg_sender env) + cooldownSeconds s)
    eqn:E.
  - apply N.ltb_lt in E. split; [split; [reflexivity | lia] | discriminate].
  - apply N.ltb_ge in E. split.
    + split; [lia|]. intros H. by_cases_in H; discriminate.
    + intros s' evs H. by_cases_in H; try discriminate.
      injection H as <- <-. rewrite timeAt_submitted.
      destruct (decide (msg_sender env = msg_sender env)); [reflexivity|congruence].
Qed.

Lemma request_cooldown env batch s :
  msg_sender env = owner s ->
  paused s = false ->
  timeAt (lastDecryptionRequestTime s) (msg_sender env) + cooldownSeconds s
    <= MAX_UINT256 ->
  ((Z.of_N (block_timestamp env)
      - Z.of_N (timeAt (lastDecryptionRequestTime s) (msg_sender env))
    < Z.of_N (cooldownSeconds s))%Z
   <-> requestBatchDecryption env batch s = Revert CooldownActive s)
  /\ (forall s' evs, requestBatchDecryption env batch s = Ok tt s' evs ->
        timeAt (lastDecryptionRequestTime s') (msg_sender env) = block_timestamp env).
Proof.
  intros Hown Hpause Hfit.
  rewrite requestBatchDecryption_eq, (owner_check_passes _ _ Hown), Hpause.
  apply N.leb_le in Hfit. rewrite Hfit.
  destruct (block_timestamp env
              <? timeAt (lastDecryptionRequestTime s) (msg_sender env) + cooldownSeconds s)
    eqn:E.
  - apply N.ltb_lt in E. split; [split; [reflexivity | lia] | discriminate].
  - apply N.ltb_ge in E. split.
    + split; [lia|]. intros H. by_cases_in H; discriminate.
    + intros s' evs H. by_cases_in H; try discriminate.
      injection H as <- <-. rewrite timeAt_requested.
      destruct (decide (msg_sender env = msg_sender env)); [reflexivity|congruence].
Qed.

Lemma cooldown_overflow_panics env batch a ex ey s :
  providerAt s (msg_sender env) = true ->
  paused s = false ->
  MAX_UINT256 < timeAt (lastSubmissionTime s) (msg_sender env) + cooldownSeconds s ->
  submitLemming env batch a ex ey s = Revert (Panic 17) s.
Proof.
  intros Hprov Hpause Hover. rewrite submitLemming_eq, Hprov, Hpause. cbn [negb].
  apply N.leb_gt in Hover. now rewrite Hover.
Qed.

Lemma cooldown_scenario who oracle batch a ex ey s :
  providerAt s who = true ->
  paused s = false ->
  batchOpenAt s batch = true ->
  cooldownSeconds s = 60 ->
  timeAt (lastSubmissionTime s) who + 61 <= MAX_UINT256 ->
  countAt s batch + 1 <= MAX_UINT256 ->
  let last := timeAt (lastSubmissionTime s) who in
  submitLemming (mkEnv who (last + 30) oracle) batch a ex ey s = Revert CooldownActive s
  /\ submitLemming (mkEnv who (last + 61) oracle) batch a ex ey s
     = Ok tt (submitted (mkEnv who (last + 61) oracle) batch a ex ey s)
         [LemmingSubmitted who batch (countAt s batch + 1)]
  /\ countAt (submitted (mkEnv who (last + 61) oracle) batch a ex ey s) batch
     = countAt s batch + 1.
Proof.
  intros Hprov Hpause Hopen Hcd Ht Hc last.
  rewrite !submitLemming_eq. cbn [msg_sender block_timestamp].
  fold last. rewrite Hprov, Hpause, Hopen, Hcd. cbn [negb].
  replace (last + 60 <=? MAX_UINT256) with true
    by (symmetry; apply N.leb_le; unfold last; lia).
  replace (last + 30 <? last + 60) with true by (symmetry; apply N.ltb_lt; lia).
  replace (last + 61 <? last + 60) with false by (symmetry; apply N.ltb_ge; lia).
  apply N.leb_le in Hc. rewrite Hc.
  repeat split.
  rewrite countAt_submitted. destruct (decide (batch = batch)); [reflexivity|congruence].
Qed.

Lemma request_overflow_panics env batch s :
  msg_sender env = owner s ->
  paused s = false ->
  MAX_UINT256 < timeAt (lastDecryptionRequestTime s) (msg_sender env) + cooldownSeconds s ->
  requestBatchDecryption env batch s = Revert (Panic 17) s.
Proof.
  intros Hown Hpause Hover.
  rewrite requestBatchDecryption_eq, (owner_check_passes _ _ Hown), Hpause.
  apply N.leb_gt in Hover. now rewrite Hover.
Qed.

(** C7, as the code has it.  For a caller that has passed the role and
    pause checks, and as long as [lastActionTime + window] fits in 256 bits,
    [submitLemming] and [requestBatchDecryption] revert with
    [CooldownActive] exactly when [now - lastActionTime < window]; a call
    that returns has set the caller's timestamp to [now]; a call that
    reverts, at the guard or at any later step, leaves the storage, and so
    the timestamp, as it was.  When [lastActionTime + window] exceeds
    [2^256 - 1] the guard's checked addition reverts with [Panic 0x11]
    instead.  With a 60-second window, a submitter whose last submission
    returned at time [t] (at [t = 0] in particular) is refused with
    [CooldownActive] at [t + 30], the record count staying as it was, and is
    served again at [t + 61], with the next record id. *)
Theorem C7_cooldown_guard :
  (forall env batch a ex ey s,
     providerAt s (msg_sender env) = true ->
     paused s = false ->
     timeAt (lastSubmissionTime s) (msg_sender env) + cooldownSeconds s <= MAX_UINT256 ->
     ((Z.of_N (block_timestamp env)
         - Z.of_N (timeAt (lastSubmissionTime s) (msg_sender env))
       < Z.of_N (cooldownSeconds s))%Z
      <-> submitLemming env batch a ex ey s = Revert CooldownActive s)
     /\ (forall s' evs, submitLemming env batch a ex ey s = Ok tt s' evs ->
           timeAt (lastSubmissionTime s') (msg_sender env) = block_timestamp env))
  /\ (forall env batch s,
        msg_sender env = owner s ->
        paused s = false ->
        timeAt (lastDecryptionRequestTime s) (msg_sender env) + cooldownSeconds s
          <= MAX_UINT256 ->
        ((Z.of_N (block_timestamp env)
            - Z.of_N (timeAt (lastDecryptionRequestTime s) (msg_sender env))
          < Z.of_N (cooldownSeconds s))%Z
         <-> requestBatchDecryption env batch s = Revert CooldownActive s)
        /\ (forall s' evs, requestBatchDecryption env batch s = Ok tt s' evs ->
              timeAt (lastDecryptionRequestTime s') (msg_sender env)
              = block_timestamp env))
  /\ (forall env batch a ex ey s e s',
        (submitLemming env batch a ex ey s = Revert e s' -> s' = s)
        /\ (requestBatchDecryption env batch s = Revert e s' -> s' = s))
  /\ (forall env batch a ex ey s,
        paused s = false ->
        (providerAt s (msg_sender env) = true ->
         MAX_UINT256
           < timeAt (lastSubmissionTime s) (msg_sender env) + cooldownSeconds s ->
         submitLemming env batch a ex ey s = Revert (Panic 17) s)
        /\ (msg_sender env = owner s ->
            MAX_UINT256
              < timeAt (lastDecryptionRequestTime s) (msg_sender env) + cooldownSeconds s ->
            requestBatchDecryption env batch s = Revert (Panic 17) s))
  /\ (forall who oracle batch a ex ey s,
        providerAt s who = true ->
        paused s = false ->
        batchOpenAt s batch = true ->
        cooldownSeconds s = 60 ->
        timeAt (lastSubmissionTime s) who + 61 <= MAX_UINT256 ->
        countAt s batch + 1 <= MAX_UINT256 ->
        let last := timeAt (lastSubmissionTime s) who in
        submitLemming (mkEnv who (last + 30) oracle) batch a ex ey s
        = Revert CooldownActive s
        /\ submitLemming (mkEnv who (last + 61) oracle) batch a ex ey s
           = Ok tt (submitted (mkEnv who (last + 61) oracle) batch a ex ey s)
               [LemmingSubmitted who batch (countAt s batch + 1)]
        /\ countAt (submitted (mkEnv who (last + 61) oracle) batch a ex ey s) batch
           = countAt s batch + 1).
Proof.
  repeat apply conj.
  - intros. now apply submit_cooldown.
  - intros. now apply request_cooldown.
  - intros env batch a ex ey s e s'. split; intros H.
    + exact (run_revert_same env (SubmitLemming batch a ex ey) s e s' H).
    + exact (run_revert_same env (RequestBatchDecryption batch) s e s' H).
  - intros env batch a ex ey s Hp. split; intros.
    + now apply cooldown_overflow_panics.
    + now apply request_overflow_panics.
  - intros. now apply cooldown_scenario.
Qed.

(** C9. With a window [w > 0], a principal whose stored timestamp still
    reads the default 0 is refused with [CooldownActive] at every time
    [now < w]: a provider on [submitLemming], the owner on
    [requestBatchDecryption], while the contract is not paused.  The guard
    compares [now] with [0 + w] and so does not tell a principal that never
    acted from one that acted at time 0. *)
Theorem C9_first_action_blocked_before_window env batch a ex ey s :
  0 < cooldownSeconds s ->
  cooldownSeconds s <= MAX_UINT256 ->
  block_timestamp env < cooldownSeconds s ->
  paused s = false ->
  (providerAt s (msg_sender env) = true ->
   lastSubmissionTime s !! msg_sender env = None ->
   submitLemming env batch a ex ey s = Revert CooldownActive s)
  /\ (msg_sender env = owner s ->
      lastDecryptionRequestTime s !! msg_sender env = None ->
      requestBatchDecryption env batch s = Revert CooldownActive s)
  /\ (forall last : gmap N N,
        last !! msg_sender env = None \/ last !! msg_sender env = Some 0 ->
        respectCooldown env (msg_sender env) (fun _ => last) s = Revert CooldownActive s).
Proof.
  intros Hpos Hmax Hnow Hpause.
  apply N.leb_le in Hmax. apply N.ltb_lt in Hnow.
  repeat apply conj.
  - intros Hprov Hnone. rewrite submitLemming_eq, Hprov, Hpause. cbn [negb].
    unfold timeAt. rewrite Hnone. cbn [default]. rewrite N.add_0_l, Hmax, Hnow.
    reflexivity.
  - intros Hown Hnone.
    rewrite requestBatchDecryption_eq, (owner_check_passes _ _ Hown), Hpause.
    unfold timeAt. rewrite Hnone. cbn [default]. rewrite N.add_0_l, Hmax, Hnow.
    reflexivity.
  - intros last Hl. unfold respectCooldown. unfold_monad. cbn.
    assert (Hz : timeAt last (msg_sender env) = 0)
      by (unfold timeAt; destruct Hl as [-> | ->]; reflexivity).
    rewrite Hz, N.add_0_l, Hmax. cbn. now rewrite Hnow.
Qed.

(** ** Record ids and closed batches *)

Lemma submit_assigns_next env batch a ex ey s s' evs :
  submitLemming env batch a ex ey s = Ok tt s' evs ->
  evs = [LemmingSubmitted (msg_sender env) batch (countAt s batch + 1)]
  /\ countAt s' batch = countAt s batch + 1
  /\ lemmingAt s' batch (countAt s batch + 1) = mkLemming a ex ey.
Proof.
  intros H. rewrite submitLemming_eq in H. by_cases_in H; try discriminate.
  injection H as <- <-.
  rewrite countAt_submitted, lemmingAt_submitted.
  destruct (decide (batch = batch)); [|congruence].
  destruct (decide ((batch, countAt s batch + 1) = (batch, countAt s batch + 1)));
    [auto | congruence].
Qed.

Lemma records_kept env c s b :
  countAt s b <= countAt (fst (transact env c s)) b
  /\ forall i, i <= countAt s b ->
       lemmingAt (fst (transact env c s)) b i = lemmingAt s b i.
Proof.
  unfold transact.
  destruct (run env c s) as [[] s' evs|e s'] eqn:H; cbn [fst];
    [|split; [apply N.le_refl | reflexivity]].
  destruct c; on_success H; try (split; [apply N.le_refl | reflexivity]).
  rewrite countAt_submitted. split.
  - destruct (decide (batch = b)) as [->|]; lia.
  - intros i Hi. rewrite lemmingAt_submitted.
    destruct (decide ((batch, countAt s batch + 1) = (b, i))) as [E|]; [|reflexivity].
    injection E as -> <-. lia.
Qed.

Lemma closed_step env c s b :
  is_closed b s ->
  is_closed b (fst (transact env c s))
  /\ countAt (fst (transact env c s)) b = countAt s b
  /\ forall i, lemmingAt (fst (transact env c s)) b i = lemmingAt s b i.
Proof.
  intros [Hle Hcl]. unfold transact.
  destruct (run env c s) as [[] s' evs|e s'] eqn:H; cbn [fst];
    [|repeat split; auto].
  destruct c; on_success H; try (repeat split; auto; fail).
  - (* openBatch *)
    repeat split; auto.
    + change (currentBatchId (opened s)) with (currentBatchId s + 1). lia.
    + rewrite batchOpenAt_opened.
      destruct (decide (currentBatchId s + 1 = b)); [lia | exact Hcl].
  - (* closeBatch *)
    repeat split; auto.
    rewrite batchOpenAt_closed. destruct (decide (batch = b)); auto.
  - (* submitLemming *)
    assert (Hne : batch <> b).
    { intros ->. rewrite Hcl in *. discriminate. }
    repeat split; auto.
    + rewrite countAt_submitted. destruct (decide (batch = b)); congruence.
    + intros i. rewrite lemmingAt_submitted.
      destruct (decide ((batch, countAt s batch + 1) = (b, i))); congruence.
Qed.

Lemma closed_trace b tr : forall s log,
  is_closed b s ->
  is_closed b (fst (execute tr s log))
  /\ countAt (fst (execute tr s log)) b = countAt s b
  /\ forall i, lemmingAt (fst (execute tr s log)) b i = lemmingAt s b i.
Proof.
  induction tr as [|[env c] tr IH]; intros s log Hc;
    [repeat split; auto; apply Hc|].
  cbn [execute].
  destruct (closed_step env c s b Hc) as (Hc' & Hn & Hl).
  destruct (transact env c s) as [s' evs]. cbn [fst] in *.
  destruct (IH s' (log ++ evs) Hc') as (Hc2 & Hn2 & Hl2).
  repeat split; try apply Hc2; [congruence|].
  intros i. now rewrite Hl2.
Qed.

Lemma closed_rejects_submission env b a ex ey s :
  batchOpenAt s b = false ->
  exists e, submitLemming env b a ex ey s = Revert e s
            /\ (providerAt s (msg_sender env) = true ->
                paused s = false ->
                timeAt (lastSubmissionTime s) (msg_sender env) + cooldownSeconds s
                  <= block_timestamp env ->
                block_timestamp env <= MAX_UINT256 ->
                e = BatchClosedOrInvalid).
Proof.
  intros Hcl. rewrite submitLemming_eq, Hcl. cbn [negb].
  repeat match goal with
         | |- context [if ?c then _ else _] => destruct c eqn:?
         end;
    eexists; (split; [reflexivity|]); intros Hp Hu Hcd Hnow;
    try reflexivity; exfalso.
  - rewrite Hp in *. discriminate.
  - discriminate.
  - match goal with E : (_ <? _) = true |- _ => apply N.ltb_lt in E end. lia.
  - match goal with E : (_ <=? _) = false |- _ => apply N.leb_gt in E end. lia.
Qed.

Lemma closed_still_decryptable env b s cleartexts proof :
  msg_sender env = owner s ->
  paused s = false ->
  timeAt (lastDecryptionRequestTime s) (msg_sender env) + cooldownSeconds s
    <= block_timestamp env ->
  block_timestamp env <= MAX_UINT256 ->
  countAt s b <> 0 ->
  countAt s b * 3 <= MAX_UINT256 ->
  requestBatchDecryption env b s
  = Ok tt (requested env b s)
      [DecryptionRequested (fhe_requestId env) b
         (_hashCiphertexts (batchCiphertexts s b (countAt s b)))]
  /\ (checkSignatures (fhe_requestId env) cleartexts proof = true ->
      N.of_nat (length cleartexts) <= MAX_UINT256 ->
      3 * countAt s b * 32 <= N.of_nat (length cleartexts) ->
      myCallback (fhe_requestId env) cleartexts proof (requested env b s)
      = Ok tt (finalized (fhe_requestId env) (requested env b s))
          [DecryptionCompleted (fhe_requestId env) b
             (decodedAbilities (N.to_nat (countAt s b)) cleartexts)
             (decodedXs (N.to_nat (countAt s b)) cleartexts)
             (decodedYs (N.to_nat (countAt s b)) cleartexts)]).
Proof.
  intros Hown Hpause Hcd Hnow Hn Hfit. split.
  - rewrite requestBatchDecryption_eq, (owner_check_passes _ _ Hown), Hpause.
    replace (timeAt (lastDecryptionRequestTime s) (msg_sender env) + cooldownSeconds s
             <=? MAX_UINT256) with true by (symmetry; apply N.leb_le; lia).
    replace (block_timestamp env
             <? timeAt (lastDecryptionRequestTime s) (msg_sender env) + cooldownSeconds s)
      with false by (symmetry; apply N.ltb_ge; lia).
    apply N.eqb_neq in Hn. apply N.leb_le in Hfit. now rewrite Hn, Hfit.
  - intros Hsig Hmax Hlen.
    assert (Hctx : contextAt (requested env b s) (fhe_requestId env)
                   = mkContext b (_hashCiphertexts (batchCiphertexts s b (countAt s b)))
                       false).
    { rewrite contextAt_requested.
      destruct (decide (fhe_requestId env = fhe_requestId env)); [reflexivity|congruence]. }
    assert (Hchk : checks_passed (fhe_requestId env) cleartexts proof (requested env b s)).
    { unfold checks_passed. cbv zeta. rewrite Hctx. cbn [processed batchId stateHash].
      repeat split; auto. }
    pose proof (callback_decodes_prefix (fhe_requestId env) cleartexts proof
                  (requested env b s) Hchk) as Hdec.
    rewrite Hctx in Hdec. cbn [batchId] in Hdec.
    change (countAt (requested env b s) b) with (countAt s b) in Hdec.
    exact (proj1 (Hdec Hn Hfit Hmax) Hlen).
Qed.

(** C8. Record ids are dense and closed batches stay closed.  In every
    reachable state the record ids announced for a batch, oldest first, are
    [1; 2; ...; lemmingCountInBatch]: a submission that returns takes the id
    one above the count and stores its record there.  No transaction lowers
    a batch's count or changes a record stored under an id up to the count.
    Once [closeBatch] has returned for a batch, the batch stays closed
    through all later transactions and every submission to it reverts, with
    [BatchClosedOrInvalid] when the caller passes the checks that come
    first; its count and its records stay as they were, the owner's
    decryption request for it returns when it holds records, and the
    callback for that request returns on a verified proof. *)
Theorem C8_dense_ids_and_closed_batches :
  (forall deployer tr b,
     submittedIds b (snd (deploy deployer tr))
     = idsUpTo (countAt (fst (deploy deployer tr)) b))
  /\ (forall env batch a ex ey s s' evs,
        submitLemming env batch a ex ey s = Ok tt s' evs ->
        evs = [LemmingSubmitted (msg_sender env) batch (countAt s batch + 1)]
        /\ countAt s' batch = countAt s batch + 1
        /\ lemmingAt s' batch (countAt s batch + 1) = mkLemming a ex ey)
  /\ (forall env c s b,
        countAt s b <= countAt (fst (transact env c s)) b
        /\ forall i, i <= countAt s b ->
             lemmingAt (fst (transact env c s)) b i = lemmingAt s b i)
  /\ (forall deployer tr0 env b s1 evs,
        closeBatch env b (fst (deploy deployer tr0)) = Ok tt s1 evs ->
        forall tr log,
          let s2 := fst (execute tr s1 log) in
          batchOpenAt s2 b = false
          /\ countAt s2 b = countAt s1 b
          /\ (forall i, lemmingAt s2 b i = lemmingAt s1 b i)
          /\ (forall env' a ex ey,
                exists e,
                  submitLemming env' b a ex ey s2 = Revert e s2
                  /\ (providerAt s2 (msg_sender env') = true ->
                      paused s2 = false ->
                      timeAt (lastSubmissionTime s2) (msg_sender env') + cooldownSeconds s2
                        <= block_timestamp env' ->
                      block_timestamp env' <= MAX_UINT256 ->
                      e = BatchClosedOrInvalid))
          /\ (forall env' (cleartexts proof : bytes),
                msg_sender env' = owner s2 ->
                paused s2 = false ->
                timeAt (lastDecryptionRequestTime s2) (msg_sender env') + cooldownSeconds s2
                  <= block_timestamp env' ->
                block_timestamp env' <= MAX_UINT256 ->
                countAt s2 b <> 0 ->
                countAt s2 b * 3 <= MAX_UINT256 ->
                requestBatchDecryption env' b s2
                = Ok tt (requested env' b s2)
                    [DecryptionRequested (fhe_requestId env') b
                       (_hashCiphertexts (batchCiphertexts s2 b (countAt s2 b)))]
                /\ (checkSignatures (fhe_requestId env') cleartexts proof = true ->
                    N.of_nat (length cleartexts) <= MAX_UINT256 ->
                    3 * countAt s2 b * 32 <= N.of_nat (length cleartexts) ->
                    myCallback (fhe_requestId env') cleartexts proof (requested env' b s2)
                    = Ok tt (finalized (fhe_requestId env') (requested env' b s2))
                        [DecryptionCompleted (fhe_requestId env') b
                           (decodedAbilities (N.to_nat (countAt s2 b)) cleartexts)
                           (decodedXs (N.to_nat (countAt s2 b)) cleartexts)
                           (decodedYs (N.to_nat (countAt s2 b)) cleartexts)]))).
Proof.
  repeat apply conj.
  - intros deployer tr b. destruct (deploy_inv deployer tr) as [_ [_ Hs]]. apply Hs.
  - intros. now apply submit_assigns_next.
  - intros env c s b. apply records_kept.
  - intros deployer tr0 env b s1 evs Hclose tr log s2.
    destruct (deploy_inv deployer tr0) as [Hb _].
    set (s0 := fst (deploy deployer tr0)) in *.
    rewrite closeBatch_eq in Hclose. by_cases_in Hclose; try discriminate.
    injection Hclose as <- <-.
    assert (Hopen : batchOpenAt s0 b = true).
    { match goal with E : negb (batchOpenAt _ _) = false |- _ =>
        now apply negb_false_iff in E end. }
    assert (Hc1 : is_closed b (closed b s0)).
    { split.
      - change (currentBatchId (closed b s0)) with (currentBatchId s0).
        destruct (Hb b (or_introl Hopen)). assumption.
      - rewrite batchOpenAt_closed. destruct (decide (b = b)); congruence. }
    destruct (closed_trace b tr (closed b s0) log Hc1) as ([_ Hcl] & Hn & Hl).
    fold s2 in Hcl, Hn, Hl.
    split; [exact Hcl|]. split; [exact Hn|]. split; [exact Hl|]. split.
    + intros env' a ex ey. now apply closed_rejects_submission.
    + intros env' ct pf. apply closed_still_decryptable.
Qed.

(** ** Roles *)

Lemma owner_check_fails env s :
  msg_sender env <> owner s -> negb (N.eqb (msg_sender env) (owner s)) = true.
Proof. intros H. apply N.eqb_neq in H. now rewrite H. Qed.

(** X1. The role check is the first check of every guarded entry point.  A
    caller that is not the owner gets [NotOwner] from each of the eight
    owner-only functions, and a caller that is not a provider, the owner
    included, gets [NotProvider] from [submitLemming]: whatever the pause
    flag, the cooldown, the batch and the arguments are, and with the
    storage untouched. *)
Theorem X1_role_check_comes_first env c s :
  (owner_only c = true -> msg_sender env <> owner s ->
   run env c s = Revert NotOwner s)
  /\ (forall batch a ex ey,
        c = SubmitLemming batch a ex ey ->
        providerAt s (msg_sender env) = false ->
        run env c s = Revert NotProvider s).
Proof.
  split.
  - intros Hc Ho. apply owner_check_fails in Ho.
    destruct c; try discriminate Hc; cbn [run].
    + now rewrite transferOwnership_eq, Ho.
    + now rewrite addProvider_eq, Ho.
    + now rewrite removeProvider_eq, Ho.
    + now rewrite setPaused_eq, Ho.
    + now rewrite setCooldownSeconds_eq, Ho.
    + now rewrite openBatch_eq, Ho.
    + now rewrite closeBatch_eq, Ho.
    + now rewrite requestBatchDecryption_eq, Ho.
  - intros batch a ex ey -> Hp. cbn [run]. now rewrite submitLemming_eq, Hp.
Qed.

(** X2. What a caller other than the owner cannot change.  Whatever
    transaction such a caller sends, the owner, the provider set, the pause
    flag, the cooldown window, the batch counter, the open flags and the
    decryption-request timestamps stay as they were, and so do the batch and
    the commitment of every decryption context. *)
Theorem X2_only_owner_administers env c s :
  msg_sender env <> owner s ->
  let s' := fst (transact env c s) in
  owner s' = owner s
  /\ isProvider s' = isProvider s
  /\ paused s' = paused s
  /\ cooldownSeconds s' = cooldownSeconds s
  /\ currentBatchId s' = currentBatchId s
  /\ isBatchOpen s' = isBatchOpen s
  /\ lastDecryptionRequestTime s' = lastDecryptionRequestTime s
  /\ forall r, batchId (contextAt s' r) = batchId (contextAt s r)
               /\ stateHash (contextAt s' r) = stateHash (contextAt s r).
Proof.
  intros Ho s'. subst s'. unfold transact.
  destruct (run env c s) as [[] s1 evs|e s1] eqn:H; cbn [fst];
    [|repeat split; reflexivity].
  apply owner_check_fails in Ho.
  destruct c; expose_call H; rewrite ?Ho in H; try discriminate H.
  - (* submitLemming *)
    by_cases_in H; try discriminate. injection H as <- <-.
    repeat split; try reflexivity. cbn. congruence.
  - (* myCallback *)
    by_cases_in H; try discriminate. injection H as <- <-.
    repeat split; try reflexivity; try (cbn; congruence);
      rewrite contextAt_finalized; destruct (decide (requestId = r)) as [->|];
      reflexivity.
Qed.

(** X3. Handing over ownership takes effect at once and is exclusive.  When
    [transferOwnership] returns, the new owner is the owner, nothing else in
    the storage has changed, and, unless the owner named itself, the
    previous owner is refused by every owner-only function from then on.
    The new owner may be any address, the zero address included. *)
Theorem X3_ownership_handover env newOwner s s' evs :
  transferOwnership env newOwner s = Ok tt s' evs ->
  msg_sender env = owner s
  /\ s' = set_owner newOwner s
  /\ evs = [OwnershipTransferred (owner s) newOwner]
  /\ (newOwner <> msg_sender env ->
      forall env' c, msg_sender env' = msg_sender env -> owner_only c = true ->
        run env' c s' = Revert NotOwner s')
  /\ (forall env' c st, msg_sender env' = newOwner -> owner_only c = true ->
        run env' c s' <> Revert NotOwner st).
Proof.
  intros H. rewrite transferOwnership_eq in H.
  destruct (negb (msg_sender env =? owner s)) eqn:E; [discriminate|].
  injection H as <- <-.
  apply negb_false_iff, N.eqb_eq in E.
  split; [exact E|]. split; [reflexivity|]. split; [reflexivity|]. split.
  - intros Hne env' c Hs Hc.
    assert (Ho : negb (msg_sender env' =? owner (set_owner newOwner s)) = true).
    { apply owner_check_fails. cbn [owner set_owner]. congruence. }
    destruct c; try discriminate Hc; cbn [run].
    + now rewrite transferOwnership_eq, Ho.
    + now rewrite addProvider_eq, Ho.
    + now rewrite removeProvider_eq, Ho.
    + now rewrite setPaused_eq, Ho.
    + now rewrite setCooldownSeconds_eq, Ho.
    + now rewrite openBatch_eq, Ho.
    + now rewrite closeBatch_eq, Ho.
    + now rewrite requestBatchDecryption_eq, Ho.
  - intros env' c st Hs Hc Hrun.
    assert (Ho : negb (msg_sender env' =? owner (set_owner newOwner s)) = false).
    { apply owner_check_passes. cbn [owner set_owner]. exact Hs. }
    destruct c; try discriminate Hc; expose_call Hrun; rewrite ?Ho in Hrun;
      cbv iota in Hrun; by_cases_in Hrun; discriminate.
Qed.

(** X4. The provider set.  [addProvider] and [removeProvider] return for the
    owner whether or not the address is a provider already, change the
    status of that address only, and take effect at once: a removed
    provider's next submission is refused with [NotProvider], and an added
    one is no longer refused for its role. *)
Theorem X4_provider_set env provider s :
  msg_sender env = owner s ->
  (exists s', addProvider env provider s = Ok tt s' [ProviderAdded provider]
     /\ providerAt s' provider = true
     /\ (forall q, q <> provider -> providerAt s' q = providerAt s q)
     /\ forall env' batch a ex ey, msg_sender env' = provider ->
          submitLemming env' batch a ex ey s' <> Revert NotProvider s')
  /\ (exists s', removeProvider env provider s = Ok tt s' [ProviderRemoved provider]
        /\ providerAt s' provider = false
        /\ (forall q, q <> provider -> providerAt s' q = providerAt s q)
        /\ forall env' batch a ex ey, msg_sender env' = provider ->
             submitLemming env' batch a ex ey s' = Revert NotProvider s').
Proof.
  intros Ho. apply owner_check_passes in Ho. split.
  - eexists. rewrite addProvider_eq, Ho. split; [reflexivity|].
    assert (Hp : providerAt (set_isProvider (<[provider:=true]> (isProvider s)) s)
                   provider = true).
    { unfold providerAt; cbn. now rewrite lookup_insert_eq. }
    split; [exact Hp|]. split.
    + intros q Hq. unfold providerAt; cbn. now rewrite lookup_insert_ne.
    + intros env' batch a ex ey Hs. rewrite submitLemming_eq, Hs, Hp. cbn [negb].
      repeat match goal with
             | |- context [if ?c then _ else _] => destruct c
             end; discriminate.
  - eexists. rewrite removeProvider_eq, Ho. split; [reflexivity|].
    assert (Hp : providerAt (set_isProvider (delete provider (isProvider s)) s)
                   provider = false).
    { unfold providerAt; cbn. now rewrite lookup_delete_eq. }
    split; [exact Hp|]. split.
    + intros q Hq. unfold providerAt; cbn. now rewrite lookup_delete_ne.
    + intros env' batch a ex ey Hs. now rewrite submitLemming_eq, Hs, Hp.
Qed.

(** ** More invariants of the reachable states *)

Lemma decodeLoop_errors k cleartexts : forall idx abilities xs ys s,
  match decodeLoop k cleartexts idx abilities xs ys s with
  | Ok _ _ _ => True
  | Revert e _ => e = SliceOutOfBounds \/ e = Panic 17
  end.
Proof.
  induction k as [|k IH]; intros idx abilities xs ys s; [exact I|].
  cbn [decodeLoop]. unfold slice. unfold_monad.
  repeat (match goal with
          | |- context [if ?c then _ else _] => destruct c
          end; auto).
  match goal with |- context [decodeLoop k ?c ?i ?a ?b ?d s] =>
    specialize (IH i a b d s); destruct (decodeLoop k c i a b d s) end; auto.
Qed.

Lemma execute_preserves (P : State -> Prop) :
  (forall env c s, P s -> P (fst (transact env c s))) ->
  forall tr s log, P s -> P (fst (execute tr s log)).
Proof.
  intros Hstep tr. induction tr as [|[env c] tr IH]; intros s log Hs; [exact Hs|].
  cbn [execute]. specialize (Hstep env c s Hs).
  destruct (transact env c s) as [s' evs]. now apply IH.
Qed.

Lemma execute_preserves_log (P : State -> list Event -> Prop) :
  (forall env c s log,
     P s log -> P (fst (transact env c s)) (log ++ snd (transact env c s))) ->
  forall tr s log, P s log -> P (fst (execute tr s log)) (snd (execute tr s log)).
Proof.
  intros Hstep tr. induction tr as [|[env c] tr IH]; intros s log Hs; [exact Hs|].
  cbn [execute]. specialize (Hstep env c s log Hs).
  destruct (transact env c s) as [s' evs]. now apply IH.
Qed.

Lemma openedIds_app l1 l2 : openedIds (l1 ++ l2) = openedIds l1 ++ openedIds l2.
Proof.
  induction l1 as [|ev l1 IH]; [reflexivity|].
  destruct ev; cbn [app openedIds]; try exact IH. now f_equal.
Qed.

Lemma openedIds_step env c s log :
  openedIds log = idsUpTo (currentBatchId s) ->
  openedIds (log ++ snd (transact env c s))
  = idsUpTo (currentBatchId (fst (transact env c s))).
Proof.
  intros Hi. unfold transact.
  destruct (run env c s) as [[] s' evs|e s'] eqn:H; cbn [fst snd];
    [|now rewrite app_nil_r].
  rewrite openedIds_app.
  destruct c; on_success H; cbn [openedIds]; rewrite ?app_nil_r; try exact Hi.
  change (currentBatchId (opened s)) with (currentBatchId s + 1).
  now rewrite idsUpTo_succ, Hi.
Qed.

Lemma currentBatchId_step env c s :
  currentBatchId s <= currentBatchId (fst (transact env c s)).
Proof.
  unfold transact.
  destruct (run env c s) as [[] s' evs|e s'] eqn:H; cbn [fst]; [|apply N.le_refl].
  destruct c; on_success H; try apply N.le_refl.
  change (currentBatchId (opened s)) with (currentBatchId s + 1). lia.
Qed.

(** X5. Batch ids are allocated densely from 1.  In every reachable state
    the ids announced by [BatchOpened], oldest first, are
    [1; 2; ...; currentBatchId]: [openBatch] takes the id one above the
    counter.  No transaction lowers the counter, so an id is never handed
    out twice. *)
Theorem X5_batch_ids_dense :
  (forall deployer tr,
     openedIds (snd (deploy deployer tr))
     = idsUpTo (currentBatchId (fst (deploy deployer tr))))
  /\ (forall env c s, currentBatchId s <= currentBatchId (fst (transact env c s)))
  /\ (forall env s s' evs,
        openBatch env s = Ok tt s' evs ->
        currentBatchId s' = currentBatchId s + 1
        /\ evs = [BatchOpened (currentBatchId s + 1)]
        /\ batchOpenAt s' (currentBatchId s + 1) = true
        /\ countAt s' (currentBatchId s + 1) = countAt s (currentBatchId s + 1)).
Proof.
  repeat apply conj.
  - intros deployer tr. unfold deploy.
    apply (execute_preserves_log
             (fun s log => openedIds log = idsUpTo (currentBatchId s))).
    + intros env c s log. apply openedIds_step.
    + reflexivity.
  - apply currentBatchId_step.
  - intros env s s' evs H. rewrite openBatch_eq in H.
    by_cases_in H; try discriminate. injection H as <- <-.
    repeat split. rewrite batchOpenAt_opened.
    destruct (decide (currentBatchId s + 1 = currentBatchId s + 1)); congruence.
Qed.

Lemma counters_inv_step env c s :
  counters_inv s -> counters_inv (fst (transact env c s)).
Proof.
  intros [Hb Hc]. unfold transact.
  destruct (run env c s) as [[] s' evs|e s'] eqn:H; cbn [fst]; [|now split].
  destruct c; on_success H; try (now split).
  - split; [|exact Hc].
    change (currentBatchId (opened s)) with (currentBatchId s + 1).
    now apply N.leb_le.
  - split; [exact Hb|]. intros b. rewrite countAt_submitted.
    destruct (decide (batch = b)); [now apply N.leb_le | apply Hc].
Qed.

(** X6. The counters never wrap.  In every reachable state the batch
    counter and every batch's record count are at most [2^256 - 1], whatever
    arguments the transactions carried: the increments are checked, so a
    call that would take a counter past the bound reverts with
    [Panic 0x11] and changes nothing. *)
Theorem X6_counters_stay_in_range :
  (forall deployer tr, counters_inv (fst (deploy deployer tr)))
  /\ (forall env s, currentBatchId s = MAX_UINT256 -> msg_sender env = owner s ->
        paused s = false -> openBatch env s = Revert (Panic 17) s)
  /\ (forall env batch a ex ey s st evs,
        countAt s batch = MAX_UINT256 ->
        submitLemming env batch a ex ey s <> Ok tt st evs).
Proof.
  split; [|split].
  - intros deployer tr.
    apply (execute_preserves counters_inv); [apply counters_inv_step|].
    split; [|intros b]; vm_compute; discriminate.
  - intros env s Hmax Ho Hp.
    rewrite openBatch_eq, (owner_check_passes _ _ Ho), Hp, Hmax. reflexivity.
  - intros env batch a ex ey s st evs Hmax H. rewrite submitLemming_eq, Hmax in H.
    replace (MAX_UINT256 + 1 <=? MAX_UINT256) with false in H by reflexivity.
    by_cases_in H; discriminate.
Qed.

Lemma records_inv_step env c s :
  records_inv s -> records_inv (fst (transact env c s)).
Proof.
  intros Hi. unfold transact.
  destruct (run env c s) as [[] s' evs|e s'] eqn:H; cbn [fst]; [|exact Hi].
  destruct c; on_success H; try exact Hi.
  intros b i. rewrite countAt_submitted. unfold submitted; cbn.
  rewrite lookup_insert. specialize (Hi b i).
  destruct (decide ((batch, countAt s batch + 1) = (b, i))) as [E|E].
  - injection E as -> <-. destruct (decide (b = b)); [|congruence].
    split; [lia | eauto].
  - rewrite Hi. destruct (decide (batch = b)) as [->|]; [|reflexivity].
    assert (i <> countAt s b + 1) by congruence. lia.
Qed.

(** X7. The storage holds a record under exactly the ids
    [1..lemmingCountInBatch].  In every reachable state, for every batch, a
    record is stored under id [i] if and only if [1 <= i <= count]; ids
    outside that range, 0 included, read as the zero record. *)
Theorem X7_records_exactly_up_to_count deployer tr b i :
  let s := fst (deploy deployer tr) in
  (is_Some (lemmings s !! (b, i)) <-> 1 <= i <= countAt s b)
  /\ (i = 0 \/ countAt s b < i -> lemmingAt s b i = zeroLemming).
Proof.
  intros s.
  assert (Hi : records_inv s).
  { apply (execute_preserves records_inv); [apply records_inv_step|].
    intros b' i'. cbn. rewrite lookup_empty. split; [intros [? ?]; discriminate|].
    change (countAt (constructor deployer) b') with 0. lia. }
  split; [apply Hi|].
  intros Hout. unfold lemmingAt.
  destruct (lemmings s !! (b, i)) eqn:E; [|reflexivity].
  assert (Hs : is_Some (lemmings s !! (b, i))) by (rewrite E; eauto).
  apply Hi in Hs. lia.
Qed.

Lemma contexts_inv_step env c s :
  contexts_inv s -> contexts_inv (fst (transact env c s)).
Proof.
  intros Hi. unfold transact.
  destruct (run env c s) as [[] s' evs|e s'] eqn:H; cbn [fst]; [|exact Hi].
  destruct c; on_success H; try exact Hi.
  - (* submitLemming *)
    intros r ctx Hr. rewrite countAt_submitted.
    destruct (decide (batch = batchId ctx)); [lia | exact (Hi r ctx Hr)].
  - (* requestBatchDecryption *)
    intros r ctx. unfold requested; cbn. rewrite lookup_insert.
    destruct (decide (fhe_requestId env = r)); [|apply Hi].
    intros [= <-]. cbn [batchId].
    match goal with E : (countAt s batch =? 0) = false |- _ =>
      now apply N.eqb_neq in E end.
  - (* myCallback *)
    intros r ctx. unfold finalized; cbn. rewrite lookup_insert.
    destruct (decide (requestId = r)); [|apply Hi].
    intros [= <-]. cbn [batchId].
    match goal with E : (countAt s _ =? 0) = false |- _ =>
      now apply N.eqb_neq in E end.
Qed.

(** X8. A recorded request always points at a batch with records.  In every
    reachable state each stored decryption context names a batch in
    [1..currentBatchId] whose record count is not zero.  So the
    [InvalidBatchId] branch of the callback is dead for recorded requests,
    as the comment at that check says: it is reached by unknown request ids
    only. *)
Theorem X8_recorded_request_has_records deployer tr r ctx :
  let s := fst (deploy deployer tr) in
  decryptionContexts s !! r = Some ctx ->
  1 <= batchId ctx <= currentBatchId s
  /\ countAt s (batchId ctx) <> 0
  /\ forall cleartexts proof st,
       myCallback r cleartexts proof s <> Revert InvalidBatchId st.
Proof.
  intros s Hr.
  assert (Hc : contexts_inv s).
  { apply (execute_preserves contexts_inv); [apply contexts_inv_step|].
    intros r' ctx' H. cbn in H. rewrite lookup_empty in H. discriminate. }
  destruct (deploy_inv deployer tr) as [Hb _]. fold s in Hb.
  pose proof (Hc r ctx Hr) as Hn.
  split; [apply Hb; now right|]. split; [exact Hn|].
  intros ct pf st H. rewrite myCallback_eq in H. cbv zeta in H.
  assert (Hctx : contextAt s r = ctx) by (unfold contextAt; now rewrite Hr).
  rewrite Hctx in H. apply N.eqb_neq in Hn. rewrite Hn in H.
  by_cases_in H; try discriminate.
  pose proof (decodeLoop_errors (N.to_nat (countAt s (batchId ctx))) ct 0 [] [] [] s)
    as He.
  match goal with E : decodeLoop _ _ _ _ _ _ _ = Revert _ _ |- _ =>
    rewrite E in He end.
  injection H as -> _. destruct He; discriminate.
Qed.

(** ** The life of a decryption request *)

Lemma context_kept env c s r :
  ~ reissues r (env, c) ->
  batchId (contextAt (fst (transact env c s)) r) = batchId (contextAt s r)
  /\ stateHash (contextAt (fst (transact env c s)) r) = stateHash (contextAt s r).
Proof.
  intros Hn. unfold transact.
  destruct (run env c s) as [[] s' evs|e s'] eqn:H; cbn [fst]; [|now split].
  destruct c; on_success H; try (now split).
  - rewrite contextAt_requested.
    destruct (decide (fhe_requestId env = r)); [|now split].
    exfalso. apply Hn. assumption.
  - rewrite contextAt_finalized. destruct (decide (requestId = r)) as [->|]; now split.
Qed.

(** X9. The commitment of a request is immutable.  Through any sequence of
    transactions in which the oracle does not hand out request id [r] again,
    the batch and the commitment stored for [r] stay what they were: no
    entry point other than [requestBatchDecryption] writes them, and the
    callback keeps both when it sets [processed]. *)
Theorem X9_commitment_immutable r tr : forall s log,
  no_reissue r tr ->
  batchId (contextAt (fst (execute tr s log)) r) = batchId (contextAt s r)
  /\ stateHash (contextAt (fst (execute tr s log)) r) = stateHash (contextAt s r).
Proof.
  induction tr as [|[env c] tr IH]; intros s log Hn; [now split|].
  inversion Hn as [|? ? Hhd Htl]; subst. cbn [execute].
  destruct (context_kept env c s r Hhd) as [Hb Hh].
  destruct (transact env c s) as [s' evs]. cbn [fst] in Hb, Hh.
  destruct (IH s' (log ++ evs) Htl) as [Hb' Hh']. split; congruence.
Qed.

Lemma batchCiphertexts_ext s s' b n :
  (forall i, lemmingAt s' b i = lemmingAt s b i) ->
  batchCiphertexts s' b n = batchCiphertexts s b n.
Proof.
  intros He. unfold batchCiphertexts.
  induction (seq 1 (N.to_nat n)) as [|i l IH]; [reflexivity|].
  cbn [flat_map]. now rewrite He, IH.
Qed.

Lemma quiet_step env c s b r :
  ~ interferes b r (env, c) ->
  contextAt (fst (transact env c s)) r = contextAt s r
  /\ countAt (fst (transact env c s)) b = countAt s b
  /\ forall i, lemmingAt (fst (transact env c s)) b i = lemmingAt s b i.
Proof.
  intros Hn. unfold transact.
  destruct (run env c s) as [[] s' evs|e s'] eqn:H; cbn [fst]; [|now repeat split].
  destruct c; on_success H; try (now repeat split).
  - (* submitLemming *)
    assert (Hne : batch <> b) by (intros ->; now apply Hn).
    split; [reflexivity|]. split.
    + rewrite countAt_submitted. destruct (decide (batch = b)); congruence.
    + intros i. rewrite lemmingAt_submitted.
      destruct (decide ((batch, countAt s batch + 1) = (b, i))); congruence.
  - (* requestBatchDecryption *)
    split; [|now split]. rewrite contextAt_requested.
    destruct (decide (fhe_requestId env = r)); [|reflexivity].
    exfalso. apply Hn. assumption.
  - (* myCallback *)
    split; [|now split]. rewrite contextAt_finalized.
    destruct (decide (requestId = r)); [|reflexivity].
    exfalso. apply Hn. assumption.
Qed.

Lemma quiet_trace b r tr : forall s log,
  quiet b r tr ->
  contextAt (fst (execute tr s log)) r = contextAt s r
  /\ countAt (fst (execute tr s log)) b = countAt s b
  /\ forall i, lemmingAt (fst (execute tr s log)) b i = lemmingAt s b i.
Proof.
  induction tr as [|[env c] tr IH]; intros s log Hq; [now repeat split|].
  inversion Hq as [|? ? Hhd Htl]; subst. cbn [execute].
  destruct (quiet_step env c s b r Hhd) as (Hc & Hn & Hl).
  destruct (transact env c s) as [s' evs]. cbn [fst] in Hc, Hn, Hl.
  destruct (IH s' (log ++ evs) Htl) as (Hc' & Hn' & Hl').
  split; [congruence|]. split; [congruence|]. intros i. now rewrite Hl', Hl.
Qed.

(** X10. A request whose batch was left alone can be finalized.  After
    [requestBatchDecryption] has returned for a batch, let any transactions
    follow that neither submit to that batch, nor reuse the request id, nor
    call back for it: administration, other batches, other requests, closing
    the batch itself.  Then the callback with a proof that verifies and
    cleartexts of at least [3 * count * 32] bytes returns, sets [processed]
    and announces the decoded triples. *)
Theorem X10_undisturbed_request_finalizes env batch s0 s1 evs tr log
    (cleartexts proof : bytes) :
  requestBatchDecryption env batch s0 = Ok tt s1 evs ->
  quiet batch (fhe_requestId env) tr ->
  checkSignatures (fhe_requestId env) cleartexts proof = true ->
  N.of_nat (length cleartexts) <= MAX_UINT256 ->
  3 * countAt s0 batch * 32 <= N.of_nat (length cleartexts) ->
  let s2 := fst (execute tr s1 log) in
  myCallback (fhe_requestId env) cleartexts proof s2
  = Ok tt (finalized (fhe_requestId env) s2)
      [DecryptionCompleted (fhe_requestId env) batch
         (decodedAbilities (N.to_nat (countAt s0 batch)) cleartexts)
         (decodedXs (N.to_nat (countAt s0 batch)) cleartexts)
         (decodedYs (N.to_nat (countAt s0 batch)) cleartexts)].
Proof.
  intros Hreq Hq Hsig Hmax Hlen s2.
  rewrite requestBatchDecryption_eq in Hreq. by_cases_in Hreq; try discriminate.
  injection Hreq as <- <-.
  destruct (quiet_trace batch (fhe_requestId env) tr (requested env batch s0) log Hq)
    as (Hc & Hn & Hl). fold s2 in Hc, Hn, Hl.
  change (countAt (requested env batch s0) batch) with (countAt s0 batch) in Hn.
  assert (Hctx : contextAt s2 (fhe_requestId env)
                 = mkContext batch
                     (_hashCiphertexts (batchCiphertexts s0 batch (countAt s0 batch)))
                     false).
  { rewrite Hc, contextAt_requested.
    destruct (decide (fhe_requestId env = fhe_requestId env)); [reflexivity|congruence]. }
  assert (Hcts : batchCiphertexts s2 batch (countAt s0 batch)
                 = batchCiphertexts s0 batch (countAt s0 batch)).
  { apply batchCiphertexts_ext. intros i. now rewrite Hl. }
  assert (Hchk : checks_passed (fhe_requestId env) cleartexts proof s2).
  { unfold checks_passed. cbv zeta. rewrite Hctx. cbn [processed batchId stateHash].
    rewrite Hn, Hcts. repeat split; auto. }
  pose proof (callback_decodes_prefix (fhe_requestId env) cleartexts proof s2 Hchk)
    as Hdec.
  rewrite Hctx in Hdec. cbn [batchId] in Hdec. rewrite Hn in Hdec.
  apply Hdec; try assumption.
  - match goal with E : (countAt s0 batch =? 0) = false |- _ =>
      now apply N.eqb_neq in E end.
  - match goal with E : (countAt s0 batch * 3 <=? MAX_UINT256) = true |- _ =>
      now apply N.leb_le in E end.
Qed.


(** ** Closing, requesting, cooling down *)

(** X12. Closing a batch.  For the owner, [closeBatch] reverts with
    [BatchClosedOrInvalid] on a batch that is not open, which in a reachable
    state covers batch 0 and every id above the counter; on an open batch it
    returns, clears the flag of that batch only, and leaves the counter, the
    counts and the records alone.  A second [closeBatch] of the same batch
    reverts, whoever sends it. *)
Theorem X12_close_batch :
  (forall env batch s,
     msg_sender env = owner s -> batchOpenAt s batch = false ->
     closeBatch env batch s = Revert BatchClosedOrInvalid s)
  /\ (forall deployer tr env batch,
        let s := fst (deploy deployer tr) in
        msg_sender env = owner s ->
        batch = 0 \/ currentBatchId s < batch ->
        closeBatch env batch s = Revert BatchClosedOrInvalid s)
  /\ (forall env batch s s' evs,
        closeBatch env batch s = Ok tt s' evs ->
        evs = [BatchClosed batch]
        /\ batchOpenAt s batch = true
        /\ batchOpenAt s' batch = false
        /\ (forall b, b <> batch -> batchOpenAt s' b = batchOpenAt s b)
        /\ currentBatchId s' = currentBatchId s
        /\ lemmingCountInBatch s' = lemmingCountInBatch s
        /\ lemmings s' = lemmings s
        /\ forall env', exists e, closeBatch env' batch s' = Revert e s').
Proof.
  repeat apply conj.
  - intros env batch s Ho Hc.
    now rewrite closeBatch_eq, (owner_check_passes _ _ Ho), Hc.
  - intros deployer tr env batch s Ho Hb.
    destruct (deploy_inv deployer tr) as [Hi _]. fold s in Hi.
    rewrite closeBatch_eq, (owner_check_passes _ _ Ho).
    destruct (batchOpenAt s batch) eqn:E; [|reflexivity].
    destruct (Hi batch (or_introl E)). lia.
  - intros env batch s s' evs H. rewrite closeBatch_eq in H.
    by_cases_in H; try discriminate. injection H as <- <-.
    assert (Hcl : batchOpenAt (closed batch s) batch = false).
    { rewrite batchOpenAt_closed. destruct (decide (batch = batch)); congruence. }
    split; [reflexivity|].
    split; [match goal with E : negb (batchOpenAt _ _) = false |- _ =>
              now apply negb_false_iff in E end|].
    split; [exact Hcl|]. split.
    { intros b Hb. rewrite batchOpenAt_closed. destruct (decide (batch = b)); congruence. }
    repeat split.
    intros env'. rewrite closeBatch_eq, Hcl. cbn [negb].
    destruct (negb (msg_sender env' =? owner (closed batch s))); eauto.
Qed.

(** X13. A decryption request needs records.  In every reachable state, the
    owner's request, with the contract unpaused and the cooldown over,
    reverts with [InvalidBatchId] for batch 0, for an id above the batch
    counter and for a batch without records; whether the batch is open plays
    no part. *)
Theorem X13_request_needs_records deployer tr env batch :
  let s := fst (deploy deployer tr) in
  msg_sender env = owner s ->
  paused s = false ->
  timeAt (lastDecryptionRequestTime s) (msg_sender env) + cooldownSeconds s
    <= block_timestamp env ->
  block_timestamp env <= MAX_UINT256 ->
  batch = 0 \/ currentBatchId s < batch \/ countAt s batch = 0 ->
  requestBatchDecryption env batch s = Revert InvalidBatchId s.
Proof.
  intros s Ho Hp Hcd Hnow Hb.
  destruct (deploy_inv deployer tr) as [Hi _]. fold s in Hi.
  assert (Hz : countAt s batch = 0).
  { destruct (N.eq_dec (countAt s batch) 0) as [E|E]; [exact E|].
    destruct (Hi batch (or_intror E)). lia. }
  rewrite requestBatchDecryption_eq, (owner_check_passes _ _ Ho), Hp.
  replace (timeAt (lastDecryptionRequestTime s) (msg_sender env) + cooldownSeconds s
           <=? MAX_UINT256) with true by (symmetry; apply N.leb_le; lia).
  replace (block_timestamp env
           <? timeAt (lastDecryptionRequestTime s) (msg_sender env) + cooldownSeconds s)
    with false by (symmetry; apply N.ltb_ge; lia).
  now rewrite Hz.
Qed.

(** X14. Cooldown timestamps are kept per principal and per kind of action.
    A principal's submission timestamp changes only when a [submitLemming]
    sent by that principal returns, and then to the block time; its request
    timestamp only when a [requestBatchDecryption] sent by it returns.  No
    call moves another principal's timestamps or the timestamp of the other
    kind. *)
Theorem X14_cooldown_timestamps_are_private env c s u :
  let s' := fst (transact env c s) in
  (timeAt (lastSubmissionTime s') u <> timeAt (lastSubmissionTime s) u ->
   (exists batch a ex ey, c = SubmitLemming batch a ex ey)
   /\ u = msg_sender env
   /\ timeAt (lastSubmissionTime s') u = block_timestamp env)
  /\ (timeAt (lastDecryptionRequestTime s') u <> timeAt (lastDecryptionRequestTime s) u ->
      (exists batch, c = RequestBatchDecryption batch)
      /\ u = msg_sender env
      /\ timeAt (lastDecryptionRequestTime s') u = block_timestamp env).
Proof.
  intros s'. subst s'. unfold transact.
  destruct (run env c s) as [[] s1 evs|e s1] eqn:H; cbn [fst];
    [|split; intros Hd; now elim Hd].
  destruct c; on_success H;
    try (split; intros Hd; now elim Hd).
  - split; [|intros Hd; now elim Hd].
    rewrite timeAt_submitted. destruct (decide (msg_sender env = u)) as [<-|].
    + intros _. repeat split; eauto.
    + intros Hd. now elim Hd.
  - split; [intros Hd; now elim Hd|].
    rewrite timeAt_requested. destruct (decide (msg_sender env = u)) as [<-|].
    + intros _. repeat split; eauto.
    + intros Hd. now elim Hd.
Qed.

(** ** What the callback announces *)

Lemma abi_decode_bound (w : bytes) : forall acc,
  fold_left (fun a b => a * 256 + Byte.to_N b) w acc
  < (acc + 1) * 256 ^ N.of_nat (length w).
Proof.
  induction w as [|b w IH]; intros acc.
  - cbn [fold_left length]. change (256 ^ N.of_nat 0) with 1. lia.
  - cbn [fold_left length]. specialize (IH (acc * 256 + Byte.to_N b)).
    pose proof (Byte.to_N_bounded b) as Hb.
    replace (N.of_nat (S (length w))) with (N.succ (N.of_nat (length w))) by lia.
    rewrite N.pow_succ_r'.
    eapply N.lt_le_trans; [exact IH|].
    replace ((acc + 1) * (256 * 256 ^ N.of_nat (length w)))
      with ((acc * 256 + 256) * 256 ^ N.of_nat (length w)) by lia.
    apply N.mul_le_mono_r. lia.
Qed.

Lemma wordAt_bound (b : bytes) k : wordAt b k <= MAX_UINT256.
Proof.
  unfold wordAt, abi_decode_uint256.
  pose proof (abi_decode_bound (take 32 (drop (32 * k) b)) 0) as H.
  assert (Hl : N.of_nat (length (take 32 (drop (32 * k) b))) <= 32).
  { rewrite length_take. lia. }
  assert (Hp : 256 ^ N.of_nat (length (take 32 (drop (32 * k) b))) <= 256 ^ 32).
  { apply N.pow_le_mono_r; [discriminate | exact Hl]. }
  change (256 ^ 32) with (MAX_UINT256 + 1) in Hp. lia.
Qed.

(** X15. What a returning callback announces.  When [myCallback] returns on
    cleartexts whose length is a 256-bit value, it has set [processed] and
    changed nothing else, the cleartexts hold at least [3 * count * 32]
    bytes, and its one event carries three lists with one entry per record
    of the batch, every entry a 256-bit value. *)
Theorem X15_callback_result_shape r (cleartexts proof : bytes) s s' evs :
  myCallback r cleartexts proof s = Ok tt s' evs ->
  N.of_nat (length cleartexts) <= MAX_UINT256 ->
  let n := countAt s (batchId (contextAt s r)) in
  s' = finalized r s
  /\ 3 * n * 32 <= N.of_nat (length cleartexts)
  /\ exists abilities xs ys,
       evs = [DecryptionCompleted r (batchId (contextAt s r)) abilities xs ys]
       /\ length abilities = N.to_nat n
       /\ length xs = N.to_nat n
       /\ length ys = N.to_nat n
       /\ Forall (fun v => v <= MAX_UINT256) (abilities ++ xs ++ ys).
Proof.
  intros H Hmax n.
  destruct (callback_ok_checks _ _ _ _ _ _ H) as [Hc ->].
  assert (Hn : n <> 0 /\ n * 3 <= MAX_UINT256).
  { pose proof H as H'. rewrite myCallback_eq in H'. cbv zeta in H'. fold n in H'.
    destruct (processed (contextAt s r)); [discriminate|].
    destruct (n =? 0) eqn:E0; [discriminate|].
    destruct (n * 3 <=? MAX_UINT256) eqn:E3; [|discriminate].
    split; [now apply N.eqb_neq | now apply N.leb_le]. }
  destruct Hn as [Hn0 Hn3].
  destruct (callback_decodes_prefix r cleartexts proof s Hc Hn0 Hn3 Hmax)
    as [Hlong Hshort].
  fold n in Hlong, Hshort.
  destruct (N.le_gt_cases (3 * n * 32) (N.of_nat (length cleartexts))) as [Hl|Hl].
  - rewrite (Hlong Hl) in H. injection H as <-.
    split; [reflexivity|]. split; [exact Hl|].
    exists (decodedAbilities (N.to_nat n) cleartexts),
           (decodedXs (N.to_nat n) cleartexts),
           (decodedYs (N.to_nat n) cleartexts).
    unfold decodedAbilities, decodedXs, decodedYs.
    rewrite !length_map, !length_seq. repeat split.
    rewrite !Forall_app, !Forall_map. repeat split;
      apply Forall_forall; intros; apply wordAt_bound.
  - rewrite (Hshort Hl) in H. discriminate.
Qed.

Lemma triples_lookup (f : nat -> Lemming) k : forall a i,
  (i < k)%nat ->
  let l := flat_map (fun j => [ability (f j); x (f j); y (f j)]) (seq a k) in
  l !! (3 * i)%nat = Some (ability (f (a + i)%nat))
  /\ l !! (3 * i + 1)%nat = Some (x (f (a + i)%nat))
  /\ l !! (3 * i + 2)%nat = Some (y (f (a + i)%nat)).
Proof.
  induction k as [|k IH]; intros a i Hi l; [lia|].
  subst l. cbn [seq flat_map]. destruct i as [|i].
  - rewrite Nat.add_0_r. repeat split.
  - replace (3 * S i)%nat with (S (S (S (3 * i)))) by lia.
    replace (a + S i)%nat with (S a + i)%nat by lia.
    cbn [app Nat.add lookup list_lookup].
    apply (IH (S a) i). lia.
Qed.

(** X16. The order of the handles under the commitment.  The sequence that
    [requestBatchDecryption] and [myCallback] hash holds [3 * n] handles,
    and for each of the first [n] records, taken by ascending id, the
    ability, the x and the y handle, in that order: positions [3j], [3j+1]
    and [3j+2] hold the fields of record [j+1]. *)
Theorem X16_commitment_handle_order s batch n (j : nat) :
  (j < N.to_nat n)%nat ->
  let cts := batchCiphertexts s batch n in
  let record := lemmingAt s batch (N.of_nat (S j)) in
  length cts = (3 * N.to_nat n)%nat
  /\ cts !! (3 * j)%nat = Some (ability record)
  /\ cts !! (3 * j + 1)%nat = Some (x record)
  /\ cts !! (3 * j + 2)%nat = Some (y record).
Proof.
  intros Hj cts record. split; [apply batchCiphertexts_length|].
  exact (triples_lookup (fun i => lemmingAt s batch (N.of_nat i)) (N.to_nat n) 1 j Hj).
Qed.

(** ** One result per request *)

Lemma completions_app r l1 l2 :
  completions r (l1 ++ l2) = (completions r l1 + completions r l2)%nat.
Proof.
  induction l1 as [|ev l1 IH]; [reflexivity|].
  destruct ev; cbn [app completions]; try exact IH.
  destruct (N.eqb requestId r); [cbn; now f_equal | exact IH].
Qed.

Lemma completion_step env c s r :
  ~ reissues r (env, c) ->
  (processed (contextAt s r) = true ->
   completions r (snd (transact env c s)) = O)
  /\ (completions r (snd (transact env c s)) <= 1)%nat
  /\ (completions r (snd (transact env c s)) = 1%nat ->
      processed (contextAt (fst (transact env c s)) r) = true).
Proof.
  intros Hn. unfold transact.
  destruct (run env c s) as [[] s' evs|e s'] eqn:H; cbn [fst snd];
    [|cbn; repeat split; auto; discriminate].
  destruct c; on_success H; cbn [completions];
    try (repeat split; auto; discriminate).
  destruct (N.eqb requestId r) eqn:E.
  - apply N.eqb_eq in E. subst requestId. repeat split; auto.
    + intros Hp. congruence.
    + intros _. rewrite contextAt_finalized.
      destruct (decide (r = r)); [reflexivity|congruence].
  - repeat split; auto. discriminate.
Qed.

Lemma completions_after_processed r tr : forall s log,
  no_reissue r tr ->
  processed (contextAt s r) = true ->
  completions r (snd (execute tr s log)) = completions r log.
Proof.
  induction tr as [|[env c] tr IH]; intros s log Hn Hp; [reflexivity|].
  inversion Hn as [|? ? Hhd Htl]; subst. cbn [execute].
  destruct (completion_step env c s r Hhd) as (Hzero & _ & _).
  pose proof (processed_stable env c s r Hhd Hp) as Hp'.
  specialize (Hzero Hp).
  destruct (transact env c s) as [s' evs]. cbn [fst snd] in *.
  rewrite (IH s' (log ++ evs) Htl Hp'), completions_app, Hzero. lia.
Qed.

(** X18. A request is answered at most once in the log.  Through any
    sequence of transactions in which the oracle does not hand out request
    id [r] again, at most one [DecryptionCompleted] event for [r] is
    emitted, and none at all once [processed] is set for [r]. *)
Theorem X18_one_completion_per_request r tr : forall s log,
  no_reissue r tr ->
  (completions r (snd (execute tr s log)) <= completions r log + 1)%nat
  /\ (processed (contextAt s r) = true ->
      completions r (snd (execute tr s log)) = completions r log).
Proof.
  induction tr as [|[env c] tr IH]; intros s log Hn; [cbn; split; [lia|reflexivity]|].
  split; [|now apply completions_after_processed].
  inversion Hn as [|? ? Hhd Htl]; subst. cbn [execute].
  destruct (completion_step env c s r Hhd) as (_ & Hle & Hone).
  destruct (transact env c s) as [s' evs] eqn:Et. cbn [fst snd] in *.
  destruct (IH s' (log ++ evs) Htl) as [Hmore _].
  rewrite completions_app in Hmore.
  destruct (completions r evs) as [|[|k]] eqn:Ec; [lia| |lia].
  rewrite (completions_after_processed r tr s' (log ++ evs) Htl (Hone eq_refl)).
  rewrite completions_app, Ec. lia.
Qed.

End Contract.

(** ** The front end's action history *)

Lemma take_cons_take {A : Type} (a : A) (l : list A) :
  a :: take 9 (take 10 l) = take 10 (a :: l).
Proof. cbn [take]. f_equal. rewrite take_take. reflexivity. Qed.

Lemma history_fold (entries : list (string * string)) : forall h0 : list string,
  entries <> [] ->
  fold_left (fun h e => addToHistory (fst e) (snd e) h) entries h0
  = take 10 (rev (map (fun e => (fst e ++ ": " ++ snd e)%string) entries) ++ h0).
Proof.
  induction entries as [|e entries IH] using rev_ind; intros h0 Hne; [congruence|].
  rewrite fold_left_app, map_app, rev_app_distr. cbn [fold_left map rev app].
  destruct entries as [|e' entries'].
  - reflexivity.
  - rewrite IH by discriminate. unfold addToHistory. apply take_cons_take.
Qed.

(** X17. The action history of the web client keeps the ten most recent
    entries, newest first.  After any number of [addToHistory] updates, one
    at least, the history is the first ten elements of the entries added,
    latest first, followed by the previous history; started empty, it is the
    latest ten entries, and it never grows beyond ten. *)
Theorem X17_history_keeps_ten_newest (entries : list (string * string))
    (h0 : list string) :
  let step := fun h (e : string * string) => addToHistory (fst e) (snd e) h in
  let entry := fun e : string * string => (fst e ++ ": " ++ snd e)%string in
  (entries <> [] ->
   fold_left step entries h0 = take 10 (rev (map entry entries) ++ h0)
   /\ (length (fold_left step entries h0) <= 10)%nat)
  /\ fold_left step entries [] = take 10 (rev (map entry entries)).
Proof.
  intros step entry. split.
  - intros Hne. unfold step. rewrite (history_fold entries h0 Hne).
    split; [reflexivity|]. rewrite length_take. lia.
  - destruct entries as [|e entries]; [reflexivity|].
    unfold step. rewrite history_fold by discriminate. now rewrite app_nil_r.
Qed.

(** ** Concrete runs *)

(** A stand-in for keccak256 that tells sequences of different length apart,
    and a proof verification that accepts. *)
Abbreviation len_hash := (fun (cts : list N) (_ : N) => N.of_nat (length cts)) (only parsing).
Abbreviation accept_all := (fun (_ : N) (_ _ : bytes) => true) (only parsing).
Abbreviation reject_all := (fun (_ : N) (_ _ : bytes) => false) (only parsing).

(** The 32-byte big-endian word of a value below 256. *)
Abbreviation word32 b := (repeat x00 31 ++ [b]) (only parsing).

(** Owner 1 adds provider 2 and opens batch 1; the provider submits one
    record. *)
Abbreviation one_record :=
  (fst (deploy 9 len_hash accept_all 1
          [ (mkEnv 1 0 0, AddProvider 2);
            (mkEnv 1 0 0, OpenBatch);
            (mkEnv 2 0 0, SubmitLemming 1 2 5 7) ])) (only parsing).

(** ... and the owner requests its decryption at time 5; the oracle answers
    with request id 77. *)
Abbreviation one_record_requested :=
  (requested 9 len_hash (mkEnv 1 5 77) 1 one_record) (only parsing).

(** The end-to-end scenario: the callback decoding (2, 5, 7) finalizes
    request 77; the same callback again is a replay. *)
Lemma C1_witness :
  myCallback 9 len_hash accept_all 77 (word32 x02 ++ word32 x05 ++ word32 x07) []
    (finalized 77 one_record_requested)
  = Revert ReplayAttempt (finalized 77 one_record_requested).
Proof.
  assert (Hfin : myCallback 9 len_hash accept_all 77
                   (word32 x02 ++ word32 x05 ++ word32 x07) [] one_record_requested
                 = Ok tt (finalized 77 one_record_requested)
                     [DecryptionCompleted 77 1 [2] [5] [7]])
    by (vm_compute; reflexivity).
  destruct (C1_processed_set_at_most_once _ _ _ _ _ _ _ _ _ Hfin) as (_ & _ & Hrep & _).
  assert (Hn : no_reissue 77 []) by constructor.
  specialize (Hrep [] [] Hn). cbv zeta in Hrep.
  destruct Hrep as [_ Hrej]. exact (proj1 (Hrej (mkEnv 0 0 0) _ _)).
Defined.

(** One more record between request and callback: the callback is refused. *)
Lemma C2_witness :
  myCallback 9 len_hash accept_all 77 (word32 x02 ++ word32 x05 ++ word32 x07) []
    (submitted (mkEnv 2 6 0) 1 3 4 8 one_record_requested)
  = Revert StateMismatch (submitted (mkEnv 2 6 0) 1 3 4 8 one_record_requested).
Proof.
  refine (proj1 (proj2 (C2_state_drift_rejected 9 len_hash accept_all
                          (mkEnv 1 5 77) (mkEnv 2 6 0) 1 3 4 8
                          one_record one_record_requested
                          [DecryptionRequested 77 1 3]
                          (submitted (mkEnv 2 6 0) 1 3 4 8 one_record_requested)
                          [LemmingSubmitted 2 1 2] _ _ _ _) (mkEnv 0 0 0) _ _)).
  - vm_compute; reflexivity.
  - vm_compute; reflexivity.
  - vm_compute. discriminate.
  - intros _. vm_compute. discriminate.
Defined.

(** On the freshly deployed contract the callback for the unknown id 7
    reverts with [InvalidBatchId], not with an error named UnknownRequest. *)
Lemma C3_counterexample :
  ~ (forall (s : State) (r : N) (cleartexts proof : bytes),
       decryptionContexts s !! r = None ->
       exists e s', myCallback 9 len_hash accept_all r cleartexts proof s = Revert e s'
                    /\ errorName e = "UnknownRequest"%string).
Proof.
  intros Hclaim.
  destruct (Hclaim (constructor 1) 7 [] [] eq_refl) as (e & s' & Hrun & Hname).
  vm_compute in Hrun. injection Hrun as <- _. discriminate Hname.
Qed.

(** The same holds after some history, even if every proof were rejected. *)
Lemma C3_witness :
  myCallback 9 len_hash reject_all 7 [] [] one_record = Revert InvalidBatchId one_record.
Proof.
  refine (proj1 (proj2 (C3_unknown_request_invalid_batch 9 len_hash reject_all 1
                          [ (mkEnv 1 0 0, AddProvider 2);
                            (mkEnv 1 0 0, OpenBatch);
                            (mkEnv 2 0 0, SubmitLemming 1 2 5 7) ] 7 [] [] _))).
  vm_compute; reflexivity.
Defined.

(** Provider 2 is not the owner: its [closeBatch] reverts and changes nothing. *)
Lemma C4_witness :
  transact 9 len_hash accept_all (mkEnv 2 0 0) (CloseBatch 1) one_record
  = (one_record, []).
Proof.
  refine (proj2 (C4_failure_leaves_state_unchanged 9 len_hash accept_all
                   (mkEnv 2 0 0) (CloseBatch 1) one_record NotOwner one_record _)).
  vm_compute; reflexivity.
Defined.

(** The same history, after which the owner pauses the contract. *)
Abbreviation one_record_paused :=
  (fst (deploy 9 len_hash accept_all 1
          [ (mkEnv 1 0 0, AddProvider 2);
            (mkEnv 1 0 0, OpenBatch);
            (mkEnv 2 0 0, SubmitLemming 1 2 5 7);
            (mkEnv 1 1 0, SetPaused true) ])) (only parsing).

(** While paused, the owner closes the open batch 1: a mutating call other
    than the unpause that is not rejected. *)
Lemma C5_counterexample :
  ~ (forall (s : State) (env : Env) (c : Call),
       paused s = true ->
       c <> SetPaused false ->
       exists e, run 9 len_hash accept_all env c s = Revert e s).
Proof.
  intros Hclaim.
  assert (Hne : CloseBatch 1 <> SetPaused false) by discriminate.
  destruct (Hclaim one_record_paused (mkEnv 1 9 0) (CloseBatch 1) eq_refl Hne)
    as (e & Hrun).
  vm_compute in Hrun. discriminate Hrun.
Qed.

(** ... and the batch is closed by it. *)
Lemma C5_witness :
  closeBatch (mkEnv 1 9 0) 1 one_record_paused
  = Ok tt (closed 1 one_record_paused) [BatchClosed 1].
Proof.
  assert (Hp : paused one_record_paused = true) by reflexivity.
  destruct (C5_pause_gates_three_entry_points 9 len_hash accept_all
              (mkEnv 1 9 0) one_record_paused Hp) as (_ & _ & _ & Hadmin & _).
  assert (Ho : msg_sender (mkEnv 1 9 0) = owner one_record_paused) by reflexivity.
  destruct (Hadmin Ho) as (_ & _ & _ & _ & _ & _ & Hclose).
  apply Hclose. vm_compute; reflexivity.
Defined.

(** One record, 97 bytes of cleartexts instead of 96: the callback returns. *)
Lemma C6_counterexample :
  ~ (forall (s : State) (r : N) (cleartexts proof : bytes),
       N.of_nat (length cleartexts) <> 3 * countAt s (batchId (contextAt s r)) * 32 ->
       exists e s', myCallback 9 len_hash accept_all r cleartexts proof s = Revert e s').
Proof.
  intros Hclaim.
  assert (Hlen : N.of_nat (length (word32 x02 ++ word32 x05 ++ word32 x07 ++ [xff]))
                 <> 3 * countAt one_record_requested
                            (batchId (contextAt one_record_requested 77)) * 32)
    by (vm_compute; discriminate).
  destruct (Hclaim one_record_requested 77
              (word32 x02 ++ word32 x05 ++ word32 x07 ++ [xff]) [] Hlen)
    as (e & s' & Hrun).
  vm_compute in Hrun. discriminate Hrun.
Qed.

(** One record, exactly 96 bytes: the decoded triple is (2, 5, 7). *)
Lemma C6_witness :
  myCallback 9 len_hash accept_all 77 (word32 x02 ++ word32 x05 ++ word32 x07) []
    one_record_requested
  = Ok tt (finalized 77 one_record_requested) [DecryptionCompleted 77 1 [2] [5] [7]].
Proof.
  assert (Hc : checks_passed 9 len_hash accept_all 77
                 (word32 x02 ++ word32 x05 ++ word32 x07) [] one_record_requested)
    by (vm_compute; repeat split; reflexivity).
  assert (Hn : countAt one_record_requested (batchId (contextAt one_record_requested 77))
               <> 0) by (vm_compute; discriminate).
  assert (Hfit : countAt one_record_requested
                   (batchId (contextAt one_record_requested 77)) * 3 <= MAX_UINT256)
    by (vm_compute; discriminate).
  assert (Hmax : N.of_nat (length (word32 x02 ++ word32 x05 ++ word32 x07))
                 <= MAX_UINT256) by (vm_compute; discriminate).
  destruct (C6_decode_reads_prefix 9 len_hash accept_all 77
              (word32 x02 ++ word32 x05 ++ word32 x07) [] one_record_requested
              Hc Hn Hfit Hmax) as [Hlong _].
  rewrite Hlong by (vm_compute; discriminate).
  vm_compute; reflexivity.
Defined.

(** Provider 2 submits at time 1; the owner then sets the window to the
    largest 256-bit value. *)
Abbreviation window_maximal :=
  (fst (deploy 9 len_hash accept_all 1
          [ (mkEnv 1 0 0, AddProvider 2);
            (mkEnv 1 0 0, OpenBatch);
            (mkEnv 2 1 0, SubmitLemming 1 2 5 7);
            (mkEnv 1 2 0, SetCooldownSeconds MAX_UINT256) ])) (only parsing).

(** At time 5 the provider is within the window ([5 - 1 < 2^256 - 1]), yet
    the call reverts with [Panic 0x11]: [1 + (2^256 - 1)] overflows. *)
Lemma C7_counterexample :
  ~ (forall (env : Env) (batch a ex ey : N) (s : State),
       providerAt s (msg_sender env) = true ->
       paused s = false ->
       (Z.of_N (block_timestamp env)
          - Z.of_N (timeAt (lastSubmissionTime s) (msg_sender env))
        < Z.of_N (cooldownSeconds s))%Z ->
       submitLemming env batch a ex ey s = Revert CooldownActive s).
Proof.
  intros Hclaim.
  assert (Hprov : providerAt window_maximal (msg_sender (mkEnv 2 5 0)) = true)
    by (vm_compute; reflexivity).
  assert (Hpause : paused window_maximal = false) by (vm_compute; reflexivity).
  assert (Hgap : (Z.of_N (block_timestamp (mkEnv 2 5 0))
                    - Z.of_N (timeAt (lastSubmissionTime window_maximal)
                                (msg_sender (mkEnv 2 5 0)))
                  < Z.of_N (cooldownSeconds window_maximal))%Z)
    by (vm_compute; reflexivity).
  pose proof (Hclaim (mkEnv 2 5 0) 1 3 4 8 window_maximal Hprov Hpause Hgap) as Hrun.
  vm_compute in Hrun. discriminate Hrun.
Qed.

(** Provider 2 submits at time 0; the owner then sets a 60-second window. *)
Abbreviation window_sixty :=
  (fst (deploy 9 len_hash accept_all 1
          [ (mkEnv 1 0 0, AddProvider 2);
            (mkEnv 1 0 0, OpenBatch);
            (mkEnv 2 0 0, SubmitLemming 1 2 5 7);
            (mkEnv 1 0 0, SetCooldownSeconds 60) ])) (only parsing).

(** The cooldown scenario: refused at 30, served at 61 with record id 2. *)
Lemma C7_witness :
  submitLemming (mkEnv 2 30 0) 1 3 4 8 window_sixty = Revert CooldownActive window_sixty
  /\ submitLemming (mkEnv 2 61 0) 1 3 4 8 window_sixty
     = Ok tt (submitted (mkEnv 2 61 0) 1 3 4 8 window_sixty) [LemmingSubmitted 2 1 2].
Proof.
  destruct (C7_cooldown_guard 9 len_hash accept_all) as (_ & _ & _ & _ & Hscenario).
  assert (Hprov : providerAt window_sixty 2 = true) by (vm_compute; reflexivity).
  assert (Hpause : paused window_sixty = false) by (vm_compute; reflexivity).
  assert (Hopen : batchOpenAt window_sixty 1 = true) by (vm_compute; reflexivity).
  assert (Hw : cooldownSeconds window_sixty = 60) by (vm_compute; reflexivity).
  assert (Ht : timeAt (lastSubmissionTime window_sixty) 2 + 61 <= MAX_UINT256)
    by (vm_compute; discriminate).
  assert (Hc : countAt window_sixty 1 + 1 <= MAX_UINT256) by (vm_compute; discriminate).
  destruct (Hscenario 2 0 1 3 4 8 window_sixty Hprov Hpause Hopen Hw Ht Hc)
    as (H30 & H61 & _).
  split; [exact H30 | exact H61].
Defined.

(** Batch 1 is closed; opening batch 2 and a submission aimed at batch 1
    leave it closed with its one record. *)
Lemma C8_witness :
  batchOpenAt
    (fst (execute 9 len_hash accept_all
            [ (mkEnv 1 3 0, OpenBatch); (mkEnv 2 4 0, SubmitLemming 1 3 4 8) ]
            (closed 1 one_record) [])) 1 = false
  /\ countAt
       (fst (execute 9 len_hash accept_all
               [ (mkEnv 1 3 0, OpenBatch); (mkEnv 2 4 0, SubmitLemming 1 3 4 8) ]
               (closed 1 one_record) [])) 1 = countAt (closed 1 one_record) 1.
Proof.
  destruct (C8_dense_ids_and_closed_batches 9 len_hash accept_all)
    as (_ & _ & _ & Hclosed).
  assert (Hclose : closeBatch (mkEnv 1 2 0) 1
                     (fst (deploy 9 len_hash accept_all 1
                             [ (mkEnv 1 0 0, AddProvider 2);
                               (mkEnv 1 0 0, OpenBatch);
                               (mkEnv 2 0 0, SubmitLemming 1 2 5 7) ]))
                   = Ok tt (closed 1 one_record) [BatchClosed 1])
    by (vm_compute; reflexivity).
  destruct (Hclosed _ _ _ _ _ _ Hclose
              [ (mkEnv 1 3 0, OpenBatch); (mkEnv 2 4 0, SubmitLemming 1 3 4 8) ] [])
    as (Hshut & Hcount & _).
  split; [exact Hshut | exact Hcount].
Defined.

(** A 60-second window set before provider 2 has ever submitted. *)
Abbreviation window_first :=
  (fst (deploy 9 len_hash accept_all 1
          [ (mkEnv 1 0 0, AddProvider 2);
            (mkEnv 1 0 0, OpenBatch);
            (mkEnv 1 0 0, SetCooldownSeconds 60) ])) (only parsing).

(** The provider's very first submission, at time 30, is refused. *)
Lemma C9_witness :
  submitLemming (mkEnv 2 30 0) 1 2 5 7 window_first = Revert CooldownActive window_first.
Proof.
  refine (proj1 (C9_first_action_blocked_before_window 9 len_hash
                   (mkEnv 2 30 0) 1 2 5 7 window_first _ _ _ _) _ _);
    vm_compute; first [reflexivity | discriminate].
Defined.

(** Request id 5 was never handed out. *)
Lemma C10_witness :
  myCallback 9 len_hash accept_all 5 [] [] one_record = Revert InvalidBatchId one_record.
Proof.
  destruct (C10_batch_zero_never_used 9 len_hash accept_all 1
              [ (mkEnv 1 0 0, AddProvider 2);
                (mkEnv 1 0 0, OpenBatch);
                (mkEnv 2 0 0, SubmitLemming 1 2 5 7) ]) as (_ & _ & Hunknown).
  assert (Hnever : ~ In 5 (requestedIds
                             (snd (deploy 9 len_hash accept_all 1
                                     [ (mkEnv 1 0 0, AddProvider 2);
                                       (mkEnv 1 0 0, OpenBatch);
                                       (mkEnv 2 0 0, SubmitLemming 1 2 5 7) ]))))
    by (vm_compute; intros []).
  destruct (Hunknown 5 Hnever) as [_ Hrev].
  exact (proj1 (Hrev (mkEnv 0 0 0) [] [])).
Defined.

(** *** Roles and administration *)

(** Provider 2 is not the owner: its [openBatch] is refused for the role. *)
Lemma X1_witness :
  run 9 len_hash accept_all (mkEnv 2 0 0) OpenBatch one_record_paused
  = Revert NotOwner one_record_paused.
Proof.
  apply (proj1 (X1_role_check_comes_first 9 len_hash accept_all
                  (mkEnv 2 0 0) OpenBatch one_record_paused)).
  - reflexivity.
  - vm_compute. discriminate.
Defined.

(** Provider 2 submits a second record: the administrative storage stays. *)
Lemma X2_witness :
  isProvider (fst (transact 9 len_hash accept_all (mkEnv 2 6 0)
                     (SubmitLemming 1 3 4 8) one_record))
  = isProvider one_record
  /\ isBatchOpen (fst (transact 9 len_hash accept_all (mkEnv 2 6 0)
                         (SubmitLemming 1 3 4 8) one_record))
     = isBatchOpen one_record.
Proof.
  assert (Hne : msg_sender (mkEnv 2 6 0) <> owner one_record)
    by (vm_compute; discriminate).
  pose proof (X2_only_owner_administers 9 len_hash accept_all (mkEnv 2 6 0)
                (SubmitLemming 1 3 4 8) one_record Hne) as H.
  cbv zeta in H. destruct H as (_ & Hprov & _ & _ & _ & Hopen & _).
  split; [exact Hprov | exact Hopen].
Defined.

(** Owner 1 hands over to 5 and is refused afterwards. *)
Lemma X3_witness :
  run 9 len_hash accept_all (mkEnv 1 4 0) OpenBatch (set_owner 5 one_record)
  = Revert NotOwner (set_owner 5 one_record).
Proof.
  assert (Hgive : transferOwnership (mkEnv 1 3 0) 5 one_record
                  = Ok tt (set_owner 5 one_record) [OwnershipTransferred 1 5])
    by (vm_compute; reflexivity).
  destruct (X3_ownership_handover 9 len_hash accept_all _ _ _ _ _ Hgive)
    as (_ & _ & _ & Hold & _).
  apply Hold; [vm_compute; discriminate | reflexivity | reflexivity].
Defined.

(** Owner 1 removes provider 2, whose next submission is refused. *)
Lemma X4_witness :
  exists s', removeProvider (mkEnv 1 3 0) 2 one_record = Ok tt s' [ProviderRemoved 2]
             /\ submitLemming (mkEnv 2 4 0) 1 3 4 8 s' = Revert NotProvider s'.
Proof.
  assert (Ho : msg_sender (mkEnv 1 3 0) = owner one_record) by reflexivity.
  destruct (X4_provider_set (mkEnv 1 3 0) 2 one_record Ho)
    as [_ (s' & Hrem & _ & _ & Hsub)].
  exists s'. split; [exact Hrem | apply Hsub; reflexivity].
Defined.

(** *** Reachable states *)

(** The second batch gets id 2. *)
Lemma X5_witness :
  currentBatchId (opened one_record) = currentBatchId one_record + 1
  /\ batchOpenAt (opened one_record) (currentBatchId one_record + 1) = true.
Proof.
  assert (Hopen : openBatch (mkEnv 1 3 0) one_record
                  = Ok tt (opened one_record) [BatchOpened 2])
    by (vm_compute; reflexivity).
  destruct (X5_batch_ids_dense 9 len_hash accept_all) as (_ & _ & Hnext).
  destruct (Hnext _ _ _ _ Hopen) as (Hid & _ & Hflag & _).
  split; [exact Hid | exact Hflag].
Defined.

(** With the batch counter at its bound, [openBatch] panics. *)
Lemma X6_witness :
  openBatch (mkEnv 1 0 0) (set_currentBatchId MAX_UINT256 (constructor 1))
  = Revert (Panic 17) (set_currentBatchId MAX_UINT256 (constructor 1)).
Proof.
  destruct (X6_counters_stay_in_range 9 len_hash accept_all) as (_ & Hpanic & _).
  apply Hpanic; reflexivity.
Defined.

(** Batch 1 holds one record: id 2 reads as the zero record. *)
Lemma X7_witness : lemmingAt one_record 1 2 = zeroLemming.
Proof.
  apply (proj2 (X7_records_exactly_up_to_count 9 len_hash accept_all 1
                  [ (mkEnv 1 0 0, AddProvider 2);
                    (mkEnv 1 0 0, OpenBatch);
                    (mkEnv 2 0 0, SubmitLemming 1 2 5 7) ] 1 2)).
  right. vm_compute. reflexivity.
Defined.

(** The history up to the decryption request of batch 1 under id 77. *)
Abbreviation requested_history :=
  [ (mkEnv 1 0 0, AddProvider 2);
    (mkEnv 1 0 0, OpenBatch);
    (mkEnv 2 0 0, SubmitLemming 1 2 5 7);
    (mkEnv 1 5 77, RequestBatchDecryption 1) ] (only parsing).

(** The context of request 77 names batch 1, which holds a record. *)
Lemma X8_witness :
  countAt (fst (deploy 9 len_hash accept_all 1 requested_history))
    (batchId (mkContext 1 3 false)) <> 0.
Proof.
  assert (Hctx : decryptionContexts
                   (fst (deploy 9 len_hash accept_all 1 requested_history)) !! 77
                 = Some (mkContext 1 3 false)) by (vm_compute; reflexivity).
  pose proof (X8_recorded_request_has_records 9 len_hash accept_all 1
                requested_history 77 (mkContext 1 3 false)) as H.
  cbv zeta in H. exact (proj1 (proj2 (H Hctx))).
Defined.

(** *** Requests *)

(** A later submission and the callback leave the commitment of 77 alone. *)
Lemma X9_witness :
  stateHash
    (contextAt
       (fst (execute 9 len_hash accept_all
               [ (mkEnv 2 6 0, SubmitLemming 1 3 4 8);
                 (mkEnv 0 7 0, MyCallback 77 [] []) ]
               one_record_requested [])) 77)
  = stateHash (contextAt one_record_requested 77).
Proof.
  assert (Hn : no_reissue 77 [ (mkEnv 2 6 0, SubmitLemming 1 3 4 8);
                               (mkEnv 0 7 0, MyCallback 77 [] []) ]).
  { repeat (constructor; [intros H; exact H|]). constructor. }
  exact (proj2 (X9_commitment_immutable 9 len_hash accept_all 77 _
                  one_record_requested [] Hn)).
Defined.

(** The owner closes batch 1 and opens batch 2 after the request: the
    callback still finalizes it. *)
Lemma X10_witness :
  myCallback 9 len_hash accept_all 77 (word32 x02 ++ word32 x05 ++ word32 x07) []
    (fst (execute 9 len_hash accept_all
            [ (mkEnv 1 6 0, CloseBatch 1); (mkEnv 1 7 0, OpenBatch) ]
            one_record_requested []))
  = Ok tt
      (finalized 77
         (fst (execute 9 len_hash accept_all
                 [ (mkEnv 1 6 0, CloseBatch 1); (mkEnv 1 7 0, OpenBatch) ]
                 one_record_requested [])))
      [DecryptionCompleted 77 1
         (decodedAbilities (N.to_nat (countAt one_record 1))
            (word32 x02 ++ word32 x05 ++ word32 x07))
         (decodedXs (N.to_nat (countAt one_record 1))
            (word32 x02 ++ word32 x05 ++ word32 x07))
         (decodedYs (N.to_nat (countAt one_record 1))
            (word32 x02 ++ word32 x05 ++ word32 x07))].
Proof.
  assert (Hreq : requestBatchDecryption 9 len_hash (mkEnv 1 5 77) 1 one_record
                 = Ok tt one_record_requested [DecryptionRequested 77 1 3])
    by (vm_compute; reflexivity).
  assert (Hq : quiet 1 (fhe_requestId (mkEnv 1 5 77))
                 [ (mkEnv 1 6 0, CloseBatch 1); (mkEnv 1 7 0, OpenBatch) ]).
  { repeat (constructor; [intros H; exact H|]). constructor. }
  apply (X10_undisturbed_request_finalizes 9 len_hash accept_all (mkEnv 1 5 77) 1
           one_record one_record_requested [DecryptionRequested 77 1 3] _ []
           (word32 x02 ++ word32 x05 ++ word32 x07) [] Hreq Hq).
  - reflexivity.
  - vm_compute. discriminate.
  - vm_compute. discriminate.
Defined.


(** Batch 1 is closed once; the second attempt reverts. *)
Lemma X12_witness :
  batchOpenAt (closed 1 one_record) 1 = false
  /\ exists e, closeBatch (mkEnv 1 3 0) 1 (closed 1 one_record)
               = Revert e (closed 1 one_record).
Proof.
  assert (Hclose : closeBatch (mkEnv 1 2 0) 1 one_record
                   = Ok tt (closed 1 one_record) [BatchClosed 1])
    by (vm_compute; reflexivity).
  destruct (X12_close_batch 9 len_hash accept_all) as (_ & _ & Hok).
  destruct (Hok _ _ _ _ _ Hclose) as (_ & _ & Hshut & _ & _ & _ & _ & Hagain).
  split; [exact Hshut | exact (Hagain (mkEnv 1 3 0))].
Defined.

(** Batch 1 is open but empty: the request is refused. *)
Lemma X13_witness :
  requestBatchDecryption 9 len_hash (mkEnv 1 3 0) 1
    (fst (deploy 9 len_hash accept_all 1
            [ (mkEnv 1 0 0, AddProvider 2); (mkEnv 1 0 0, OpenBatch) ]))
  = Revert InvalidBatchId
      (fst (deploy 9 len_hash accept_all 1
              [ (mkEnv 1 0 0, AddProvider 2); (mkEnv 1 0 0, OpenBatch) ])).
Proof.
  pose proof (X13_request_needs_records 9 len_hash accept_all 1
                [ (mkEnv 1 0 0, AddProvider 2); (mkEnv 1 0 0, OpenBatch) ]
                (mkEnv 1 3 0) 1) as H.
  cbv zeta in H. apply H.
  - reflexivity.
  - reflexivity.
  - vm_compute. discriminate.
  - vm_compute. discriminate.
  - right. right. vm_compute. reflexivity.
Defined.

(** Provider 2 submits at time 6: its own submission timestamp moves to 6. *)
Lemma X14_witness :
  timeAt (lastSubmissionTime
            (fst (transact 9 len_hash accept_all (mkEnv 2 6 0)
                    (SubmitLemming 1 3 4 8) one_record))) 2 = 6.
Proof.
  pose proof (X14_cooldown_timestamps_are_private 9 len_hash accept_all
                (mkEnv 2 6 0) (SubmitLemming 1 3 4 8) one_record 2) as H.
  cbv zeta in H. destruct H as [Hsub _].
  assert (Hmoved : timeAt (lastSubmissionTime
                             (fst (transact 9 len_hash accept_all (mkEnv 2 6 0)
                                     (SubmitLemming 1 3 4 8) one_record))) 2
                   <> timeAt (lastSubmissionTime one_record) 2)
    by (vm_compute; discriminate).
  exact (proj2 (proj2 (Hsub Hmoved))).
Defined.

(** The callback for one record returns on 96 bytes. *)
Lemma X15_witness :
  3 * countAt one_record_requested (batchId (contextAt one_record_requested 77)) * 32
  <= N.of_nat (length (word32 x02 ++ word32 x05 ++ word32 x07)).
Proof.
  assert (Hfin : myCallback 9 len_hash accept_all 77
                   (word32 x02 ++ word32 x05 ++ word32 x07) [] one_record_requested
                 = Ok tt (finalized 77 one_record_requested)
                     [DecryptionCompleted 77 1 [2] [5] [7]])
    by (vm_compute; reflexivity).
  assert (Hmax : N.of_nat (length (word32 x02 ++ word32 x05 ++ word32 x07))
                 <= MAX_UINT256) by (vm_compute; discriminate).
  pose proof (X15_callback_result_shape 9 len_hash accept_all 77 _ _ _ _ _ Hfin Hmax)
    as H.
  cbv zeta in H. exact (proj1 (proj2 H)).
Defined.

(** The first handle under the commitment is the ability of record 1. *)
Lemma X16_witness :
  batchCiphertexts one_record 1 1 !! 0%nat = Some (ability (lemmingAt one_record 1 1)).
Proof.
  assert (Hj : (0 < N.to_nat 1)%nat) by (vm_compute; lia).
  pose proof (X16_commitment_handle_order one_record 1 1 0 Hj) as H.
  cbv zeta in H. exact (proj1 (proj2 H)).
Defined.

(** *** The front end *)

(** Two actions on top of an old entry. *)
Lemma X17_witness :
  fold_left (fun h (e : string * string) => addToHistory (fst e) (snd e) h)
    [ ("10:00", "Loading lemmings data"); ("10:01", "Contract is available") ]%string
    [ "09:59: start"%string ]
  = [ "10:01: Contract is available"; "10:00: Loading lemmings data"; "09:59: start" ]%string.
Proof.
  assert (Hne : [ ("10:00", "Loading lemmings data");
                  ("10:01", "Contract is available") ]%string <> []) by discriminate.
  pose proof (X17_history_keeps_ten_newest
                [ ("10:00", "Loading lemmings data"); ("10:01", "Contract is available") ]%string
                [ "09:59: start"%string ]) as H.
  cbv zeta in H. destruct H as [H _]. destruct (H Hne) as [Heq _].
  rewrite Heq. reflexivity.
Defined.

(** *** Results *)

(** Two callbacks for request 77 with the same payload: one result. *)
Lemma X18_witness :
  (completions 77
     (snd (execute 9 len_hash accept_all
             [ (mkEnv 0 6 0, MyCallback 77 (word32 x02 ++ word32 x05 ++ word32 x07) []);
               (mkEnv 0 7 0, MyCallback 77 (word32 x02 ++ word32 x05 ++ word32 x07) []) ]
             one_record_requested []))
   <= completions 77 [] + 1)%nat.
Proof.
  assert (Hn : no_reissue 77
                 [ (mkEnv 0 6 0, MyCallback 77 (word32 x02 ++ word32 x05 ++ word32 x07) []);
                   (mkEnv 0 7 0, MyCallback 77 (word32 x02 ++ word32 x05 ++ word32 x07) []) ]).
  { repeat (constructor; [intros H; exact H|]). constructor. }
  exact (proj1 (X18_one_completion_per_request 9 len_hash accept_all 77 _
                  one_record_requested [] Hn)).
Defined.
